(** * Gesture pipeline and photo-focus state machine of the Christmas-tree viewer

    A shallow embedding of the control logic of [src/App.tsx] and of the two
    gesture controllers ([src/unnamed/part_000], the current one, and
    [src/unnamed/part_001], the legacy one), followed by the properties the
    specification states about them.

    JavaScript numbers are modelled as exact rationals ([Q]): every
    arithmetic expression of the source is kept as written and numeric
    results are compared with [==] ([Qeq]).  Library functions that need
    irrational values ([Math.sqrt], three.js quaternion and matrix algebra)
    are parameters.

    The rounding of binary64 is not part of that model.  Where it decides a
    property (the dispersion remap, the snap of the progress, the blend at
    alpha = 1) the same source expressions are also given over IEEE 754
    doubles, in [Binary64], and the properties are stated so that they hold
    under both readings. *)

From Stdlib Require Import QArith Qabs Qround Qminmax Lqa Lia List String Bool ZArith.
From Stdlib Require Import Ascii DecimalString DecimalNat.
From Stdlib Require SpecFloat.
Import ListNotations.
Local Open Scope Q_scope.

(** ** Comparisons of JavaScript numbers *)

(** [a < b] as a boolean ([a <= b] is [Qle_bool], [a === b] is [Qeq_bool]). *)
Definition Qltb (a b : Q) : bool := negb (Qle_bool b a).

(** ** three.js: [MathUtils] and [Vector3] *)

Module MathUtils.
(** [THREE.MathUtils.lerp(x, y, t)]. *)
Definition lerp (x y t : Q) : Q := (1 - t) * x + t * y.
End MathUtils.

Record Vector3 : Type := mkVector3 { vx : Q; vy : Q; vz : Q }.

Module Vec3.
Definition setScalar (s : Q) : Vector3 := mkVector3 s s s.
Definition multiplyScalar (v : Vector3) (s : Q) : Vector3 :=
  mkVector3 (vx v * s) (vy v * s) (vz v * s).
Definition add (a b : Vector3) : Vector3 :=
  mkVector3 (vx a + vx b) (vy a + vy b) (vz a + vz b).
(** [lerpVectors(v1, v2, alpha)]: [v1 + (v2 - v1) * alpha], per component.
    At [alpha = 1] this is [v2] over the rationals only
    ([Binary64.lerpComponent]). *)
Definition lerpVectors (v1 v2 : Vector3) (alpha : Q) : Vector3 :=
  mkVector3 (vx v1 + (vx v2 - vx v1) * alpha)
            (vy v1 + (vy v2 - vy v1) * alpha)
            (vz v1 + (vz v2 - vz v1) * alpha).
(** Equality of vectors as numbers (component-wise [==]). *)
Definition eqv (a b : Vector3) : Prop :=
  vx a == vx b /\ vy a == vy b /\ vz a == vz b.
End Vec3.

(** ** The gesture controller ([src/unnamed/part_000]) *)

Module GestureController.

(** One normalized keypoint; only [x] and [y] are read. *)
Record Landmark : Type := mkLandmark { lm_x : Q; lm_y : Q }.

(** The argument of [onUpdate]; [cursor] and [isPinching] are optional
    fields of the TypeScript type. *)
Record GestureData : Type := mkGestureData {
  rotation : Q;
  dispersion : Q;
  isHandDetected : bool;
  cursor : option (Q * Q);
  isPinching : option bool
}.

(** The clamped remap of the wrist-to-middle-tip distance:
    [Math.min(Math.max((dist - 0.15) / (0.35 - 0.15), 0), 1)].  Over the
    rationals the divisor is 0.2; over doubles it is the double just below
    ([Binary64.dispersionOfDist]). *)
Definition dispersionOfDist (dist : Q) : Q :=
  Qmin (Qmax ((dist - 0.15) / (0.35 - 0.15)) 0) 1.

(** The object passed to [onUpdate] in the "Hand lost" branch. *)
Definition handLost : GestureData :=
  {| rotation := 0; dispersion := 0; isHandDetected := false;
     cursor := Some (0, 0); isPinching := Some false |}.

Record Video : Type := mkVideo {
  readyState : Z;
  videoWidth : Z;
  videoHeight : Z;
  currentTime : Q
}.

(** Outcome of [detectForVideo]: it throws, or it returns a result whose
    [landmarks] field holds one keypoint list per detected hand. *)
Inductive Detection : Type :=
| DetectThrows
| DetectReturns (landmarks : option (list (list Landmark))).

(** What one invocation of [predictWebcam] finds around it. *)
Record TickEnv : Type := mkTickEnv {
  isRunning : bool;          (* the liveness flag of the effect *)
  handLandmarker : bool;     (* handLandmarkerRef.current is set *)
  canvasMounted : bool;      (* canvasRef.current is set *)
  video : Video;
  detect : Detection
}.

(** What one invocation leaves behind: the new [lastVideoTime], the call
    of [onUpdate] it made (if any) and whether it called
    [requestAnimationFrame] on itself.  No exception escapes: the body
    after the readiness test is inside [try]/[catch]. *)
Record TickResult : Type := mkTickResult {
  newLastVideoTime : Q;
  emitted : option GestureData;
  rescheduled : bool
}.

Section Interpreter.
(** [Math.sqrt]. *)
Variable sqrt : Q -> Q.

Definition wristMiddleDist (wrist middleTip : Landmark) : Q :=
  sqrt ((lm_x middleTip - lm_x wrist) ^ 2 + (lm_y middleTip - lm_y wrist) ^ 2).

(** The hand-present branch: the signal computed from the first hand's
    keypoints.  [None] is the [TypeError] raised when one of the indexed
    keypoints (0, 8, 4, 12) is missing; [predictWebcam] catches it. *)
Definition handSignal (landmarks : list Landmark) : option GestureData :=
  match nth_error landmarks 0, nth_error landmarks 8,
        nth_error landmarks 4, nth_error landmarks 12 with
  | Some wrist, Some indexTip, Some thumbTip, Some middleTip =>
      let rotationValue := (lm_x wrist - 0.5) * 5 in
      let dist := wristMiddleDist wrist middleTip in
      let dispersionValue := dispersionOfDist dist in
      let x := lm_x indexTip * 2 - 1 in
      let y := - (lm_y indexTip * 2 - 1) in
      let pinchDist :=
        sqrt ((lm_x thumbTip - lm_x indexTip) ^ 2
              + (lm_y thumbTip - lm_y indexTip) ^ 2) in
      let isPinching := Qltb pinchDist 0.05 in
      Some {| rotation := rotationValue;
              dispersion := dispersionValue;
              isHandDetected := true;
              cursor := Some (x, y);
              isPinching := Some isPinching |}
  | _, _, _, _ => None
  end.

(** [result.landmarks && result.landmarks.length > 0] selects the
    hand-present branch; otherwise the hand-lost signal is sent.  The
    result is the [onUpdate] argument, or [None] when the branch threw. *)
Definition interpret (landmarks : option (list (list Landmark)))
  : option GestureData :=
  match landmarks with
  | Some (hand :: _) => handSignal hand
  | _ => Some handLost
  end.

Definition degenerate (v : Video) : bool :=
  (readyState v <? 2)%Z || (videoWidth v <? 1)%Z || (videoHeight v <? 1)%Z.

(** One invocation of [predictWebcam] (drawing on the debug canvas is
    left out: it does not feed the signal). *)
Definition predictWebcam (lastVideoTime : Q) (env : TickEnv) : TickResult :=
  if negb (isRunning env) then
    mkTickResult lastVideoTime None false
  else if negb (handLandmarker env) || negb (canvasMounted env) then
    mkTickResult lastVideoTime None (isRunning env)
  else if degenerate (video env) then
    mkTickResult lastVideoTime None (isRunning env)
  else if negb (Qeq_bool (currentTime (video env)) lastVideoTime) then
    match detect env with
    | DetectThrows =>
        (* caught: "Detection error, skipping frame" *)
        mkTickResult (currentTime (video env)) None (isRunning env)
    | DetectReturns landmarks =>
        mkTickResult (currentTime (video env)) (interpret landmarks)
                     (isRunning env)
    end
  else
    mkTickResult lastVideoTime None (isRunning env).
End Interpreter.

End GestureController.

(** ** The legacy gesture controller ([src/unnamed/part_001]) *)

Module LegacyGestureController.
Import GestureController.

Record GestureData : Type := mkGestureData {
  rotation : Q;
  dispersion : Q;
  isHandDetected : bool
}.

(** The object passed to [onUpdate] when no hand is found ("Idle spin"). *)
Definition handLost : GestureData :=
  {| rotation := 0.1; dispersion := 0; isHandDetected := false |}.

Record TickEnv : Type := mkTickEnv {
  handLandmarker : bool;
  canvasMounted : bool;
  video : Video;
  detect : Detection
}.

Record TickResult : Type := mkTickResult {
  newLastVideoTime : Q;
  emitted : option GestureData;
  rescheduled : bool
}.

Section Interpreter.
Variable sqrt : Q -> Q.

Definition handSignal (landmarks : list Landmark) : option GestureData :=
  match nth_error landmarks 0, nth_error landmarks 12 with
  | Some wrist, Some middleTip =>
      let rotationValue := (lm_x wrist - 0.5) * 5 in
      let dist := wristMiddleDist sqrt wrist middleTip in
      let dispersionValue :=
        1 - Qmin (Qmax ((dist - 0.15) / (0.35 - 0.15)) 0) 1 in
      Some {| rotation := rotationValue;
              dispersion := dispersionValue;
              isHandDetected := true |}
  | _, _ => None
  end.

Definition interpret (landmarks : option (list (list Landmark)))
  : option GestureData :=
  match landmarks with
  | Some (hand :: _) => handSignal hand
  | _ => Some handLost
  end.

Definition predictWebcam (lastVideoTime : Q) (env : TickEnv) : TickResult :=
  if negb (handLandmarker env) || negb (canvasMounted env) then
    mkTickResult lastVideoTime None false
  else if degenerate (video env) then
    mkTickResult lastVideoTime None true
  else if negb (Qeq_bool (currentTime (video env)) lastVideoTime) then
    match detect env with
    | DetectThrows => mkTickResult (currentTime (video env)) None true
    | DetectReturns landmarks =>
        mkTickResult (currentTime (video env)) (interpret landmarks) true
    end
  else
    mkTickResult lastVideoTime None true.
End Interpreter.

End LegacyGestureController.

(** ** three.js: quaternions and matrices

    The operations of three.js that [PhotoGroup] calls on quaternions and
    4x4 matrices.  They involve trigonometry and matrix inversion and are
    kept abstract. *)

Class ThreeOps : Type := {
  Quaternion : Type;
  Matrix4 : Type;
  (** [new THREE.Quaternion()] *)
  identityQuaternion : Quaternion;
  (** [new THREE.Quaternion().setFromEuler(new THREE.Euler(x, y, z))] *)
  setFromEuler : Vector3 -> Quaternion;
  (** [v.applyQuaternion(q)] *)
  applyQuaternion : Vector3 -> Quaternion -> Vector3;
  (** [v.applyMatrix4(m)] *)
  applyMatrix4 : Vector3 -> Matrix4 -> Vector3;
  (** [m.clone().invert()] *)
  invertMatrix : Matrix4 -> Matrix4;
  (** [q.invert()] *)
  invertQuaternion : Quaternion -> Quaternion;
  (** [a.multiply(b)] *)
  multiplyQuaternion : Quaternion -> Quaternion -> Quaternion;
  (** [q.slerpQuaternions(qa, qb, t)] *)
  slerpQuaternions : Quaternion -> Quaternion -> Q -> Quaternion
}.

(** ** The application ([src/App.tsx]) *)

Module App.

Inductive InteractionMode : Type := MOUSE | GESTURE.

Module Photo.
Record PhotoData : Type := mkPhotoData {
  id : string;
  url : string;
  position : Vector3;
  rotation : Vector3
}.
End Photo.
Definition PhotoData : Type := Photo.PhotoData.

(** The record held in [gestureRef.current]. *)
Record GestureRef : Type := mkGestureRef {
  rotation : Q;
  dispersion : Q;
  isHandDetected : bool;
  cursor : option (Q * Q);
  isPinching : option bool;
  focusedId : option string
}.

Definition initialGestureRef : GestureRef :=
  {| rotation := 0; dispersion := 0; isHandDetected := false;
     cursor := None; isPinching := None; focusedId := None |}.

(** JavaScript truthiness of [focusedId]: neither null nor the empty string. *)
Definition truthyId (f : option string) : bool :=
  match f with
  | Some s => negb (String.eqb s EmptyString)
  | None => false
  end.

(** [focusedId === photo.id] *)
Definition isId (f : option string) (i : string) : bool :=
  match f with
  | Some s => String.eqb s i
  | None => false
  end.

(** JavaScript truthiness of the optional boolean [isPinching]. *)
Definition truthyFlag (b : option bool) : bool :=
  match b with
  | Some v => v
  | None => false
  end.

(** [handleGestureUpdate]: [{ ...gestureRef.current, ...data }]. *)
Definition handleGestureUpdate (ref : GestureRef)
           (data : GestureController.GestureData) : GestureRef :=
  {| rotation := GestureController.rotation data;
     dispersion := GestureController.dispersion data;
     isHandDetected := GestureController.isHandDetected data;
     cursor := match GestureController.cursor data with
               | Some c => Some c
               | None => cursor ref
               end;
     isPinching := match GestureController.isPinching data with
                   | Some b => Some b
                   | None => isPinching ref
                   end;
     focusedId := focusedId ref |}.

Definition setFocusedId (ref : GestureRef) (f : option string) : GestureRef :=
  {| rotation := rotation ref;
     dispersion := dispersion ref;
     isHandDetected := isHandDetected ref;
     cursor := cursor ref;
     isPinching := isPinching ref;
     focusedId := f |}.

(** *** [ChristmasTreeParticles]: the dispersion uniform *)

Definition targetDispersion (mode : InteractionMode) (ref : GestureRef) : Q :=
  match mode with
  | GESTURE => dispersion ref
  | MOUSE => 0
  end.

(** The new value of [uDispersion] after one [useFrame] callback. *)
Definition particlesFrame (mode : InteractionMode) (ref : GestureRef)
           (uDispersion : Q) : Q :=
  MathUtils.lerp uDispersion (targetDispersion mode ref) 0.1.

(** *** [Scene]: rotation and selection *)

(** The value of [speed] when it is added to the yaw. *)
Definition rotationSpeed (mode : InteractionMode) (ref : GestureRef) : Q :=
  let speed :=
    match mode with
    | GESTURE =>
        if Qltb 0.5 (dispersion ref) then rotation ref * 0.1 else rotation ref
    | MOUSE => 0.1
    end in
  if truthyId (focusedId ref) then speed * 0.05 else speed.

(** [groupRef.current.rotation.y += speed * delta], when the group is
    mounted ([None]: [groupRef.current] is null). *)
Definition sceneRotate (mode : InteractionMode) (ref : GestureRef)
           (delta : Q) (yaw : option Q) : option Q :=
  match yaw with
  | Some y => Some (y + rotationSpeed mode ref * delta)
  | None => None
  end.

(** [photos[Math.floor(Math.random() * photos.length)]], [random] being
    the value returned by [Math.random()]. *)
Definition randomPhoto (photos : list PhotoData) (random : Q) : option PhotoData :=
  let randomIndex := Qfloor (random * inject_Z (Z.of_nat (List.length photos))) in
  if (randomIndex <? 0)%Z then None
  else nth_error photos (Z.to_nat randomIndex).

(** The guard of the branch that picks a photo. *)
Definition selects (mode : InteractionMode) (ref : GestureRef) : bool :=
  match mode with
  | GESTURE =>
      isHandDetected ref
      && (truthyFlag (isPinching ref) && Qltb 0.3 (dispersion ref)
          && negb (truthyId (focusedId ref)))
  | MOUSE => false
  end.

(** The guard of the branch that releases the focus. *)
Definition releases (mode : InteractionMode) (ref : GestureRef) : bool :=
  match mode with
  | GESTURE =>
      isHandDetected ref
      && negb (truthyFlag (isPinching ref) && Qltb 0.3 (dispersion ref)
               && negb (truthyId (focusedId ref)))
      && (negb (truthyFlag (isPinching ref)) || Qle_bool (dispersion ref) 0.3)
  | MOUSE => false
  end.

(** "Photo Selection Logic".  [None] is the [TypeError] of reading [.id]
    of an undefined [randomPhoto]. *)
Definition sceneSelect (mode : InteractionMode) (photos : list PhotoData)
           (random : Q) (ref : GestureRef) : option GestureRef :=
  if selects mode ref then
    match randomPhoto photos random with
    | Some p => Some (setFocusedId ref (Some (Photo.id p)))
    | None => None
    end
  else if releases mode ref then Some (setFocusedId ref None)
  else Some ref.

(** *** [PhotoGroup]: the focus transition of one photo *)

Section PhotoGroup.
Context {three : ThreeOps}.

Record Camera : Type := mkCamera {
  cameraPosition : Vector3;
  cameraQuaternion : Quaternion
}.

(** The parent of a photo's group: its [matrixWorld] and the result of
    [getWorldQuaternion]. *)
Record Parent : Type := mkParent {
  matrixWorld : Matrix4;
  worldQuaternion : Quaternion
}.

(** The content of [lockedState.current]. *)
Record Locked : Type := mkLocked {
  pos : Vector3;
  quat : Quaternion;
  lockedScaleOf : Vector3
}.

(** The transform of [groupRef.current], which the renderer draws. *)
Record Group : Type := mkGroup {
  position : Vector3;
  quaternion : Quaternion;
  scale : Vector3
}.

(** The refs of one [PhotoGroup] instance; [group = None] stands for
    [groupRef.current] being null. *)
Record PhotoState : Type := mkPhotoState {
  progress : Q;
  lockedState : option Locked;
  group : option Group
}.

Definition targetProgress (ref : GestureRef) (photo : PhotoData) : Q :=
  if isId (focusedId ref) (Photo.id photo) then 1 else 0.

(** "1. Update Transition Progress": the lerp, then the snap.  Over
    doubles a blend factor too small to move the progress by one unit in
    the last place leaves it unsnapped ([Binary64.updateProgress]). *)
Definition updateProgress (current target delta : Q) : Q :=
  let lerped := MathUtils.lerp current target (10 * delta) in
  if Qltb (Qabs (lerped - target)) 0.01 then target else lerped.

Definition activeDispersion (mode : InteractionMode) (ref : GestureRef) : Q :=
  match mode with
  | GESTURE => dispersion ref
  | MOUSE => 0
  end.

Definition treePos (photo : PhotoData) (d : Q) : Vector3 :=
  mkVector3 (vx (Photo.position photo) * (1 + d))
            (vy (Photo.position photo))
            (vz (Photo.position photo) * (1 + d)).

Definition treeQuat (photo : PhotoData) : Quaternion :=
  setFromEuler (Photo.rotation photo).

Definition treeScale (d : Q) : Vector3 := Vec3.setScalar (1 + d * 0.5).

Definition lockedScale : Vector3 := mkVector3 3 3 3.

(** The locked pose computed from the camera, in the parent's frame. *)
Definition computeLockedPos (camera : Camera) (parent : Parent) : Vector3 :=
  let parentInverse := invertMatrix (matrixWorld parent) in
  let cameraWorldPos := cameraPosition camera in
  let cameraForward :=
    applyQuaternion (mkVector3 0 0 (-1)) (cameraQuaternion camera) in
  let targetWorldPos :=
    Vec3.add cameraWorldPos (Vec3.multiplyScalar cameraForward 10) in
  applyMatrix4 targetWorldPos parentInverse.

Definition computeLockedQuat (camera : Camera) (parent : Parent) : Quaternion :=
  multiplyQuaternion (invertQuaternion (worldQuaternion parent))
                     (cameraQuaternion camera).

(** "3. Calculate End State": the locked position and rotation used on
    this frame and the new content of [lockedState.current]. *)
Definition lockedTarget (photo : PhotoData) (d p : Q) (camera : Camera)
           (parent : option Parent) (cache : option Locked)
  : Vector3 * Quaternion * option Locked :=
  match Qle_bool 0.99 p, cache with
  | true, Some l => (pos l, quat l, cache)
  | _, _ =>
      match parent with
      | Some par =>
          let lockedPos := computeLockedPos camera par in
          let lockedQuat := computeLockedQuat camera par in
          (lockedPos, lockedQuat,
           if Qle_bool 0.99 p
           then Some (mkLocked lockedPos lockedQuat lockedScale)
           else cache)
      | None => (treePos photo d, treeQuat photo, cache)
      end
  end.

(** The [useFrame] callback of [PhotoGroup]. *)
Definition photoFrame (photo : PhotoData) (mode : InteractionMode)
           (ref : GestureRef) (delta : Q) (camera : Camera)
           (parent : option Parent) (st : PhotoState) : PhotoState :=
  match group st with
  | None => st
  | Some _ =>
      let p := updateProgress (progress st) (targetProgress ref photo) delta in
      let d := activeDispersion mode ref in
      if Qltb p 0.001 then
        {| progress := p;
           lockedState := None;
           group := Some (mkGroup (treePos photo d) (treeQuat photo)
                                  (Vec3.setScalar (1 + d * 0.5))) |}
      else
        let '(lockedPos, lockedQuat, cache) :=
          lockedTarget photo d p camera parent (lockedState st) in
        {| progress := p;
           lockedState := cache;
           group := Some (mkGroup
             (Vec3.lerpVectors (treePos photo d) lockedPos p)
             (slerpQuaternions (treeQuat photo) lockedQuat p)
             (Vec3.lerpVectors (treeScale d) lockedScale p)) |}
  end.

(** A freshly mounted [PhotoGroup]: [progress] is [useRef(0)],
    [lockedState] is [useRef(null)], the group has the default transform. *)
Definition initialPhotoState : PhotoState :=
  {| progress := 0;
     lockedState := None;
     group := Some (mkGroup (mkVector3 0 0 0) identityQuaternion
                            (mkVector3 1 1 1)) |}.

(** *** The whole scene *)

(** The mutable state the render loop and the event handlers share. *)
Record World : Type := mkWorld {
  interactionMode : InteractionMode;
  gestureRef : GestureRef;
  sceneYaw : option Q;                (* groupRef.current.rotation.y of Scene *)
  uDispersion : Q;                    (* shaderMaterial.uniforms.uDispersion.value *)
  photoGroups : list (PhotoData * PhotoState)
}.

Definition photosOf (w : World) : list PhotoData := map fst (photoGroups w).

Definition initialWorld (photos : list PhotoData) : World :=
  {| interactionMode := MOUSE;
     gestureRef := initialGestureRef;
     sceneYaw := Some 0;
     uDispersion := 0;
     photoGroups := map (fun photo => (photo, initialPhotoState)) photos |}.

(** What the renderer hands to the [useFrame] callbacks of one frame,
    and the value [Math.random()] would return on that frame. *)
Record RenderEnv : Type := mkRenderEnv {
  delta : Q;
  camera : Camera;
  photosParent : Parent;
  random : Q
}.

(** One render frame: the callbacks of [ChristmasTreeParticles], [Scene]
    and every [PhotoGroup], in their subscription order.  Every photo
    group is a child of the group held by [photosGroupRef]. *)
Definition renderFrame (env : RenderEnv) (w : World) : option World :=
  let mode := interactionMode w in
  let u := particlesFrame mode (gestureRef w) (uDispersion w) in
  let yaw := sceneRotate mode (gestureRef w) (delta env) (sceneYaw w) in
  match sceneSelect mode (photosOf w) (random env) (gestureRef w) with
  | None => None
  | Some ref =>
      Some {| interactionMode := mode;
              gestureRef := ref;
              sceneYaw := yaw;
              uDispersion := u;
              photoGroups :=
                map (fun g => (fst g,
                               photoFrame (fst g) mode ref (delta env)
                                          (camera env)
                                          (Some (photosParent env)) (snd g)))
                    (photoGroups w) |}
  end.

(** [onClick] of the [index]-th photo group. *)
Definition click (index : nat) (w : World) : World :=
  match interactionMode w, nth_error (photosOf w) index with
  | MOUSE, Some photo =>
      let ref := gestureRef w in
      let f := if isId (focusedId ref) (Photo.id photo)
               then None else Some (Photo.id photo) in
      {| interactionMode := interactionMode w;
         gestureRef := setFocusedId ref f;
         sceneYaw := sceneYaw w;
         uDispersion := uDispersion w;
         photoGroups := photoGroups w |}
  | _, _ => w
  end.

(** [onPointerMissed] of the canvas. *)
Definition pointerMissed (w : World) : World :=
  {| interactionMode := interactionMode w;
     gestureRef := setFocusedId (gestureRef w) None;
     sceneYaw := sceneYaw w;
     uDispersion := uDispersion w;
     photoGroups := photoGroups w |}.

Definition gestureUpdate (data : GestureController.GestureData) (w : World)
  : World :=
  {| interactionMode := interactionMode w;
     gestureRef := handleGestureUpdate (gestureRef w) data;
     sceneYaw := sceneYaw w;
     uDispersion := uDispersion w;
     photoGroups := photoGroups w |}.

Definition setInteractionMode (m : InteractionMode) (w : World) : World :=
  {| interactionMode := m;
     gestureRef := gestureRef w;
     sceneYaw := sceneYaw w;
     uDispersion := uDispersion w;
     photoGroups := photoGroups w |}.

(** Everything that can happen to the shared state. *)
Inductive Event : Type :=
| RenderFrame (env : RenderEnv)
| GestureUpdate (data : GestureController.GestureData)
| Click (index : nat)
| PointerMissed
| SetInteractionMode (m : InteractionMode).

Definition step (w : World) (e : Event) : option World :=
  match e with
  | RenderFrame env => renderFrame env w
  | GestureUpdate data => Some (gestureUpdate data w)
  | Click index => Some (click index w)
  | PointerMissed => Some (pointerMissed w)
  | SetInteractionMode m => Some (setInteractionMode m w)
  end.

(** Running a list of events; [None] when a frame threw. *)
Fixpoint run (w : World) (es : list Event) : option World :=
  match es with
  | [] => Some w
  | e :: es' =>
      match step w e with
      | Some w' => run w' es'
      | None => None
      end
  end.

End PhotoGroup.

End App.

(** ** The inference tick seen from the application

    [GestureController] is mounted with [onUpdate={handleGestureUpdate}]:
    the signal a tick emits, if any, is merged into [gestureRef.current]. *)

Definition onUpdate (ref : App.GestureRef)
           (emitted : option GestureController.GestureData) : App.GestureRef :=
  match emitted with
  | Some data => App.handleGestureUpdate ref data
  | None => ref
  end.

(** The tick reaches the call of [detectForVideo]. *)
Definition processesFrame (lastVideoTime : Q) (env : GestureController.TickEnv) : bool :=
  GestureController.isRunning env
  && GestureController.handLandmarker env
  && GestureController.canvasMounted env
  && negb (GestureController.degenerate (GestureController.video env))
  && negb (Qeq_bool (GestureController.currentTime (GestureController.video env))
                    lastVideoTime).

Definition legacyProcessesFrame (lastVideoTime : Q)
           (env : LegacyGestureController.TickEnv) : bool :=
  LegacyGestureController.handLandmarker env
  && LegacyGestureController.canvasMounted env
  && negb (GestureController.degenerate (LegacyGestureController.video env))
  && negb (Qeq_bool (GestureController.currentTime (LegacyGestureController.video env))
                    lastVideoTime).

(** The detector reports no hand: [landmarks] is missing or empty. *)
Definition zeroHands (landmarks : option (list (list GestureController.Landmark))) : Prop :=
  landmarks = None \/ landmarks = Some [].

(** ** JavaScript numbers as IEEE 754 doubles

    The operations of binary64 (precision 53, round to nearest, ties to
    even) as the Standard Library specifies them, and the source
    expressions whose last bit matters, evaluated with them. *)

Module Binary64.

Definition prec : Z := 53.
Definition emax : Z := 1024.
Definition float : Type := SpecFloat.spec_float.

(** The double nearest to an integer (exact below 2^53). *)
Definition ofZ (z : Z) : float := SpecFloat.binary_normalize prec emax z 0 false.

(** The double a decimal literal [n / d] denotes: the correctly rounded
    quotient of two integers that are doubles themselves. *)
Definition lit (n d : Z) : float := SpecFloat.SFdiv prec emax (ofZ n) (ofZ d).

Definition add : float -> float -> float := SpecFloat.SFadd prec emax.
Definition sub : float -> float -> float := SpecFloat.SFsub prec emax.
Definition mul : float -> float -> float := SpecFloat.SFmul prec emax.
Definition div : float -> float -> float := SpecFloat.SFdiv prec emax.
Definition sqrt : float -> float := SpecFloat.SFsqrt prec emax.
Definition abs : float -> float := SpecFloat.SFabs.
Definition ltb : float -> float -> bool := SpecFloat.SFltb.

(** [Math.max] and [Math.min] of two numbers. *)
Definition max (a b : float) : float := if ltb a b then b else a.
Definition min (a b : float) : float := if ltb b a then b else a.

(** [Math.pow(x, 2)]. *)
Definition pow2 (x : float) : float := mul x x.

(** The rational a finite double denotes. *)
Definition toQ (x : float) : Q :=
  match x with
  | SpecFloat.S754_finite s m e =>
      (if s then -1 else 1) * inject_Z (Zpos m) * 2 ^ e
  | _ => 0
  end.

(** [Math.sqrt(Math.pow(middleTip.x - wrist.x, 2)
              + Math.pow(middleTip.y - wrist.y, 2))] *)
Definition wristMiddleDist (wristX wristY middleX middleY : float) : float :=
  sqrt (add (pow2 (sub middleX wristX)) (pow2 (sub middleY wristY))).

(** [Math.min(Math.max((dist - 0.15) / (0.35 - 0.15), 0), 1)] *)
Definition dispersionOfDist (dist : float) : float :=
  min (max (div (sub dist (lit 15 100)) (sub (lit 35 100) (lit 15 100)))
           (ofZ 0))
      (ofZ 1).


(** [THREE.MathUtils.lerp(x, y, t)]: [(1 - t) * x + t * y]. *)
Definition lerp (x y t : float) : float :=
  add (mul (sub (ofZ 1) t) x) (mul t y).

(** "1. Update Transition Progress" of [PhotoGroup]. *)
Definition updateProgress (current target delta : float) : float :=
  let lerped := lerp current target (mul (ofZ 10) delta) in
  if ltb (abs (sub lerped target)) (lit 1 100) then target else lerped.

(** One component of [lerpVectors(v1, v2, alpha)]. *)
Definition lerpComponent (v1 v2 alpha : float) : float :=
  add v1 (mul (sub v2 v1) alpha).

(** The x component of [treePos] for a photo at [x]. *)
Definition treeX (x activeDispersion : float) : float :=
  mul x (add (ofZ 1) activeDispersion).

End Binary64.

(** ** The specification's formulas *)

(** [clamp(v, lo, hi)] as the specification writes it. *)
Definition spec_clamp (v lo hi : Q) : Q :=
  if Qltb v lo then lo else if Qltb hi v then hi else v.

(** The smoothing step as the specification writes it. *)
Definition spec_smooth (previous target rate : Q) : Q :=
  previous + (target - previous) * rate.

(** ** Runs of the application *)

Section RunPredicates.
Context {three : ThreeOps}.

Definition isRenderFrame (e : App.Event) : bool :=
  match e with
  | App.RenderFrame _ => true
  | _ => false
  end.


(** The frame's blend factor [10 * delta] lies in (0, 1]. *)
Definition smoothFrame (e : App.Event) : Prop :=
  match e with
  | App.RenderFrame env => 0 < 10 * App.delta env /\ 10 * App.delta env <= 1
  | _ => True
  end.



Definition frameCount (es : list App.Event) : nat :=
  List.length (filter isRenderFrame es).

(** [P] holds of the shared state at the start of every render frame. *)
Fixpoint beforeFrames (P : App.World -> Prop) (w : App.World)
         (es : list App.Event) : Prop :=
  match es with
  | [] => True
  | e :: es' =>
      (isRenderFrame e = true -> P w)
      /\ match App.step w e with
         | Some w' => beforeFrames P w' es'
         | None => True
         end
  end.




(** [P] holds of the shared state at the end of every render frame. *)
Fixpoint afterFrames (P : App.World -> Prop) (w : App.World)
         (es : list App.Event) : Prop :=
  match es with
  | [] => True
  | e :: es' =>
      match App.step w e with
      | Some w' => (isRenderFrame e = true -> P w') /\ afterFrames P w' es'
      | None => True
      end
  end.

(** What holds of every photo group while frames are smooth: the group
    is mounted, the progress is within [0, 1], and a progress of at least
    0.99 comes with a cached locked pose. *)
Definition photoInv (st : App.PhotoState) : Prop :=
  App.group st <> None
  /\ 0 <= App.progress st <= 1
  /\ (0.99 <= App.progress st -> App.lockedState st <> None).

Definition worldInv (w : App.World) : Prop :=
  Forall (fun g => photoInv (snd g)) (App.photoGroups w).

(** The frame lasts between 1 ms and 100 ms: the blend factor
    [10 * delta] lies in [0.01, 1]. *)
Definition clockFrame (e : App.Event) : Prop :=
  match e with
  | App.RenderFrame env =>
      0.01 <= 10 * App.delta env /\ 10 * App.delta env <= 1
  | _ => True
  end.

(** The transform written at progress 1 from the cached pose [l] while the
    active dispersion is [d]: the blend of the tree pose with the cache at
    alpha = 1 and the cached orientation.  Neither the camera nor the
    parent frame enters. *)
Definition lockedPose (photo : App.PhotoData) (d : Q) (l : App.Locked)
  : App.Group :=
  App.mkGroup (Vec3.lerpVectors (App.treePos photo d) (App.pos l) 1)
              (App.quat l)
              (Vec3.lerpVectors (App.treeScale d) App.lockedScale 1).

(** The photo is fully focused and shows the pose cached in [l]. *)
Definition showsLocked (photo : App.PhotoData) (d : Q) (l : App.Locked)
           (st : App.PhotoState) : Prop :=
  App.progress st = 1
  /\ App.lockedState st = Some l
  /\ App.group st = Some (lockedPose photo d l).

(** The progress has reached 0.99 and the pose is cached. *)
Definition nearlyLocked (l : App.Locked) (st : App.PhotoState) : Prop :=
  0.99 <= App.progress st <= 1
  /\ App.lockedState st = Some l
  /\ App.group st <> None.

End RunPredicates.

(** ** Concrete stand-ins for the library parameters

    Used to run the model on concrete inputs.  [sqrt6] is [Math.sqrt] to
    six decimals (exact on squares of short decimals). *)

Definition sqrt6 (q : Q) : Q :=
  Z.sqrt (Qnum q * Zpos (Qden q) * 10 ^ 12) # (Qden q * 10 ^ 6).

Module SampleThree.
Record Quat : Type := mkQuat { qx : Q; qy : Q; qz : Q; qw : Q }.

(** A rigid motion: a rotation followed by a translation. *)
Record Rigid : Type := mkRigid { rot : Quat; trans : Vector3 }.

Definition conj (q : Quat) : Quat := mkQuat (- qx q) (- qy q) (- qz q) (qw q).

Definition mul (a b : Quat) : Quat :=
  mkQuat (qx a * qw b + qw a * qx b + qy a * qz b - qz a * qy b)
         (qy a * qw b + qw a * qy b + qz a * qx b - qx a * qz b)
         (qz a * qw b + qw a * qz b + qx a * qy b - qy a * qx b)
         (qw a * qw b - qx a * qx b - qy a * qy b - qz a * qz b).

Definition rotate (v : Vector3) (q : Quat) : Vector3 :=
  let tx := 2 * (qy q * vz v - qz q * vy v) in
  let ty := 2 * (qz q * vx v - qx q * vz v) in
  let tz := 2 * (qx q * vy v - qy q * vx v) in
  mkVector3 (vx v + qw q * tx + qy q * tz - qz q * ty)
            (vy v + qw q * ty + qz q * tx - qx q * tz)
            (vz v + qw q * tz + qx q * ty - qy q * tx).

Definition apply (v : Vector3) (m : Rigid) : Vector3 :=
  Vec3.add (rotate v (rot m)) (trans m).

Definition inverse (m : Rigid) : Rigid :=
  mkRigid (conj (rot m))
          (Vec3.multiplyScalar (rotate (trans m) (conj (rot m))) (-1)).

(** Exact for the zero rotation; first order otherwise. *)
Definition ofEuler (e : Vector3) : Quat :=
  mkQuat (vx e / 2) (vy e / 2) (vz e / 2) 1.

(** Exact at both ends; a linear blend in between. *)
Definition blend (a b : Quat) (t : Q) : Quat :=
  if Qeq_bool t 0 then a
  else if Qeq_bool t 1 then b
  else mkQuat (qx a + (qx b - qx a) * t) (qy a + (qy b - qy a) * t)
              (qz a + (qz b - qz a) * t) (qw a + (qw b - qw a) * t).

Definition ops : ThreeOps :=
  {| Quaternion := Quat;
     Matrix4 := Rigid;
     identityQuaternion := mkQuat 0 0 0 1;
     setFromEuler := ofEuler;
     applyQuaternion := rotate;
     applyMatrix4 := apply;
     invertMatrix := inverse;
     invertQuaternion := conj;
     multiplyQuaternion := mul;
     slerpQuaternions := blend |}.
End SampleThree.

(** ** Sample scenes *)

Definition photoA : App.PhotoData :=
  App.Photo.mkPhotoData "photo-1" "photos/1.jpg" (mkVector3 4 0 0) (mkVector3 0 0 0).

Definition photoB : App.PhotoData :=
  App.Photo.mkPhotoData "photo-2" "photos/2.jpg" (mkVector3 0 1 4) (mkVector3 0 0 0).

Definition sampleCamera (x : Q) : @App.Camera SampleThree.ops :=
  @App.mkCamera SampleThree.ops (mkVector3 x 0 25) (SampleThree.mkQuat 0 0 0 1).

Definition sampleParent : @App.Parent SampleThree.ops :=
  @App.mkParent SampleThree.ops
    (SampleThree.mkRigid (SampleThree.mkQuat 0 0 0 1) (mkVector3 0 0 0))
    (SampleThree.mkQuat 0 0 0 1).

(** A frame lasting [delta] seconds with the camera at abscissa [x]. *)
Definition sampleFrame (delta x : Q) : @App.Event SampleThree.ops :=
  App.RenderFrame (App.mkRenderEnv delta (sampleCamera x) sampleParent 0.5).

Definition sampleWorld : @App.World SampleThree.ops :=
  App.initialWorld [photoA; photoB].

(** The world after [es], or the initial one if a frame threw. *)
Definition worldAfter (es : list (@App.Event SampleThree.ops))
  : @App.World SampleThree.ops :=
  match App.run sampleWorld es with
  | Some w => w
  | None => sampleWorld
  end.

Definition progressOf (w : @App.World SampleThree.ops) (i : nat) : Q :=
  match nth_error (App.photoGroups w) i with
  | Some (_, st) => App.progress st
  | None => 0
  end.

Definition scaleOf (w : @App.World SampleThree.ops) (i : nat) : Vector3 :=
  match nth_error (App.photoGroups w) i with
  | Some (_, {| App.group := Some g |}) => App.scale g
  | _ => mkVector3 0 0 0
  end.

Definition stateOf (w : @App.World SampleThree.ops) (i : nat)
  : @App.PhotoState SampleThree.ops :=
  match nth_error (App.photoGroups w) i with
  | Some (_, st) => st
  | None => App.initialPhotoState
  end.

(** A hand of 21 keypoints with the wrist at (0.5, 0.5), the middle
    fingertip 0.35 above it, and thumb and index tips apart. *)
Definition sampleHand : list GestureController.Landmark :=
  let lm := GestureController.mkLandmark in
  [ lm 0.5 0.5; lm 0.5 0.5; lm 0.5 0.5; lm 0.5 0.5; lm 0.4 0.3;
    lm 0.5 0.5; lm 0.5 0.5; lm 0.5 0.5; lm 0.6 0.2; lm 0.5 0.5;
    lm 0.5 0.5; lm 0.5 0.5; lm 0.5 0.15; lm 0.5 0.5; lm 0.5 0.5;
    lm 0.5 0.5; lm 0.5 0.5; lm 0.5 0.5; lm 0.5 0.5; lm 0.5 0.5;
    lm 0.5 0.5 ].

Definition sampleVideo (t : Q) : GestureController.Video :=
  GestureController.mkVideo 4 640 480 t.

(** An open hand to the right of the centre: rotation 1, dispersion 0.6. *)
Definition openHand : list GestureController.Landmark :=
  let lm := GestureController.mkLandmark in
  [ lm 0.7 0.5; lm 0.5 0.5; lm 0.5 0.5; lm 0.5 0.5; lm 0.4 0.3;
    lm 0.5 0.5; lm 0.5 0.5; lm 0.5 0.5; lm 0.6 0.2; lm 0.5 0.5;
    lm 0.5 0.5; lm 0.5 0.5; lm 0.7 0.23; lm 0.5 0.5; lm 0.5 0.5;
    lm 0.5 0.5; lm 0.5 0.5; lm 0.5 0.5; lm 0.5 0.5; lm 0.5 0.5;
    lm 0.5 0.5 ].

(** The same hand with thumb and index tips 0.01 apart. *)
Definition pinchingHand : list GestureController.Landmark :=
  let lm := GestureController.mkLandmark in
  [ lm 0.7 0.5; lm 0.5 0.5; lm 0.5 0.5; lm 0.5 0.5; lm 0.4 0.3;
    lm 0.5 0.5; lm 0.5 0.5; lm 0.5 0.5; lm 0.41 0.3; lm 0.5 0.5;
    lm 0.5 0.5; lm 0.5 0.5; lm 0.7 0.23; lm 0.5 0.5; lm 0.5 0.5;
    lm 0.5 0.5; lm 0.5 0.5; lm 0.5 0.5; lm 0.5 0.5; lm 0.5 0.5;
    lm 0.5 0.5 ].

(** The gesture update the controller sends for a hand. *)
Definition updateFor (hand : list GestureController.Landmark)
  : @App.Event SampleThree.ops :=
  App.GestureUpdate
    (match GestureController.interpret sqrt6 (Some [hand]) with
     | Some data => data
     | None => GestureController.handLost
     end).

Definition handLostUpdate : @App.Event SampleThree.ops :=
  App.GestureUpdate GestureController.handLost.


(** ** Further parts of the sources *)

(** *** [src/utils/assets.ts] *)

Module Assets.

(** [path.startsWith('/')] *)
Definition startsWithSlash (path : string) : bool := String.prefix "/" path.

(** [path.slice(1)] *)
Definition slice1 (path : string) : string :=
  match path with
  | String _ rest => rest
  | EmptyString => EmptyString
  end.

(** [getAssetPath], with [import.meta.env.BASE_URL] as a parameter. *)
Definition getAssetPath (BASE_URL path : string) : string :=
  let cleanPath := if startsWithSlash path then slice1 path else path in
  (BASE_URL ++ cleanPath)%string.

End Assets.

(** *** The photos created by [App] (the effect that calls [setPhotos]) *)

Module PhotoLayout.

Definition TOTAL_PHOTOS : nat := 10.

Section Layout.
(** [Math.cos], [Math.sin], and the value [Math.random()] returns in the
    iteration for photo [i]. *)
Variables cos sin : Q -> Q.
Variable random : nat -> Q.

(** The decimal text a template literal produces for the integer [i]. *)
Definition decimal (i : nat) : string := NilEmpty.string_of_uint (Nat.to_uint i).

(** The object pushed in iteration [i] of the loop running up to [total]. *)
Definition photoOf (total i : nat) : App.PhotoData :=
  let angle := inject_Z (Z.of_nat i) * 0.8 in
  let h := inject_Z (Z.of_nat i) / inject_Z (Z.of_nat total) * 12 - 6 in
  let r := 4 + random i in
  App.Photo.mkPhotoData
    ("photo-" ++ decimal i)%string
    ("photos/" ++ decimal i ++ ".jpg")%string
    (mkVector3 (cos angle * r) h (sin angle * r))
    (mkVector3 0 (- angle) 0).

Definition initialPhotosUpTo (total : nat) : list App.PhotoData :=
  map (photoOf total) (seq 1 total).

Definition initialPhotos : list App.PhotoData := initialPhotosUpTo TOTAL_PHOTOS.

End Layout.

End PhotoLayout.

(** *** The draggable control panel of [App] *)

Module ControlPanel.

(** [clientX], [clientY] of a pointer or of a touch. *)
Record Point : Type := mkPoint { px : Q; py : Q }.

(** [controlPos], [isDragging] and [dragOffset.current]. *)
Record DragState : Type := mkDragState {
  controlPos : Point;
  isDragging : bool;
  dragOffset : Point
}.

Definition startDrag (e : Point) (s : DragState) : DragState :=
  {| controlPos := controlPos s;
     isDragging := true;
     dragOffset := mkPoint (px e - px (controlPos s)) (py e - py (controlPos s)) |}.

Definition moveTo (e : Point) (s : DragState) : DragState :=
  {| controlPos := mkPoint (px e - px (dragOffset s)) (py e - py (dragOffset s));
     isDragging := isDragging s;
     dragOffset := dragOffset s |}.

Definition handleMouseDown (e : Point) (s : DragState) : DragState := startDrag e s.

(** [touches] is [e.touches]. *)
Definition handleTouchStart (touches : list Point) (s : DragState) : DragState :=
  match touches with
  | touch :: _ => startDrag touch s
  | [] => s
  end.

Definition handleWindowMouseMove (e : Point) (s : DragState) : DragState :=
  if isDragging s then moveTo e s else s.

Definition handleWindowTouchMove (touches : list Point) (s : DragState) : DragState :=
  match isDragging s, touches with
  | true, touch :: _ => moveTo touch s
  | _, _ => s
  end.

Definition handleWindowMouseUp (s : DragState) : DragState :=
  {| controlPos := controlPos s; isDragging := false; dragOffset := dragOffset s |}.

Definition handleWindowTouchEnd (s : DragState) : DragState := handleWindowMouseUp s.

Inductive PanelEvent : Type :=
| MouseDown (e : Point)
| MouseMove (e : Point)
| MouseUp
| TouchStart (touches : list Point)
| TouchMove (touches : list Point)
| TouchEnd.

Definition handle (s : DragState) (e : PanelEvent) : DragState :=
  match e with
  | MouseDown p => handleMouseDown p s
  | MouseMove p => handleWindowMouseMove p s
  | MouseUp => handleWindowMouseUp s
  | TouchStart ts => handleTouchStart ts s
  | TouchMove ts => handleWindowTouchMove ts s
  | TouchEnd => handleWindowTouchEnd s
  end.

Definition handleAll (s : DragState) (es : list PanelEvent) : DragState :=
  fold_left handle es s.

End ControlPanel.

(** *** The raycast [Scene] of the earlier application ([src/unnamed/part_002]) *)

Module RaycastScene.

(** The value of [speed] when it is added to the yaw (no dispersion damping). *)
Definition rotationSpeed (mode : App.InteractionMode) (ref : App.GestureRef) : Q :=
  let speed :=
    match mode with
    | App.GESTURE => App.rotation ref
    | App.MOUSE => 0.1
    end in
  if App.truthyId (App.focusedId ref) then speed * 0.05 else speed.

(** "Raycasting Logic for Focus Mode".  [hit] is the [userData.id] of the
    first intersected object named "photo-hitbox", if there is one. *)
Definition sceneSelect (mode : App.InteractionMode) (hit : option string)
           (ref : App.GestureRef) : App.GestureRef :=
  match mode, App.isHandDetected ref, App.cursor ref with
  | App.GESTURE, true, Some _ =>
      match hit, App.truthyFlag (App.isPinching ref) with
      | Some hitId, true => App.setFocusedId ref (Some hitId)
      | _, false => App.setFocusedId ref None
      | None, true => ref
      end
  | _, _, _ => ref
  end.

(** The selection over consecutive frames with the shared record otherwise
    untouched; [hits] lists what the ray meets on each frame. *)
Definition selectAll (mode : App.InteractionMode) (hits : list (option string))
           (ref : App.GestureRef) : App.GestureRef :=
  fold_left (fun r hit => sceneSelect mode hit r) hits ref.

End RaycastScene.

(** *** The first application ([src/unnamed/part_003]) *)

Module LegacyApp.

(** [useState({ rotation: 0, dispersion: 0, isHandDetected: false })] *)
Definition initialGestureData : LegacyGestureController.GestureData :=
  LegacyGestureController.mkGestureData 0 0 false.

(** [handleGestureUpdate]: [setGestureData(data)]. *)
Definition handleGestureUpdate (current data : LegacyGestureController.GestureData)
  : LegacyGestureController.GestureData := data.

(** The [interactionData] prop handed to [Scene]: rotation and dispersion. *)
Definition interactionData (mode : App.InteractionMode)
           (gestureData : LegacyGestureController.GestureData) : Q * Q :=
  match mode with
  | App.GESTURE => (LegacyGestureController.rotation gestureData,
                    LegacyGestureController.dispersion gestureData)
  | App.MOUSE => (0, 0)
  end.

(** The [useFrame] callback of [Scene]: the new yaw ([None]: not mounted). *)
Definition sceneFrame (mode : App.InteractionMode) (data : Q * Q)
           (delta : Q) (yaw : option Q) : option Q :=
  match yaw with
  | Some y =>
      match mode with
      | App.GESTURE => Some (y + fst data * delta)
      | App.MOUSE => Some (y + 0.1 * delta)
      end
  | None => None
  end.

(** The [position] and [scale] props of a photo's group. *)
Definition photoPosition (photo : App.PhotoData) (data : Q * Q) : Vector3 :=
  mkVector3 (vx (App.Photo.position photo) * (1 + snd data))
            (vy (App.Photo.position photo))
            (vz (App.Photo.position photo) * (1 + snd data)).

Definition photoScale (data : Q * Q) : Q := 1 + snd data * 0.5.

End LegacyApp.

(** ** More predicates on runs *)

(** [q] to the power [n]. *)
Fixpoint geometric (q : Q) (n : nat) : Q :=
  match n with
  | O => 1
  | S k => q * geometric q k
  end.

Section MoreRunPredicates.
Context {three : ThreeOps}.

(** The frame lasts between 0.01 s and 0.1 s: blend factor in [0.1, 1]. *)
Definition briskFrame (e : App.Event) : Prop :=
  match e with
  | App.RenderFrame env => 0.1 <= 10 * App.delta env /\ 10 * App.delta env <= 1
  | _ => True
  end.

(** A progress below 0.001 comes with an empty cache. *)
Definition restInv (st : App.PhotoState) : Prop :=
  App.progress st < 0.001 -> App.lockedState st = None.

(** The rest pose of a photo for an active dispersion [d]. *)
Definition atRest (photo : App.PhotoData) (d : Q) (st : App.PhotoState) : Prop :=
  App.lockedState st = None
  /\ App.group st
     = Some (App.mkGroup (App.treePos photo d) (App.treeQuat photo)
                         (Vec3.setScalar (1 + d * 0.5))).

End MoreRunPredicates.

(** ** More sample data *)

Definition sampleRandom (i : nat) : Q := inject_Z (Z.of_nat i) / 16.

Definition dragStart : ControlPanel.DragState :=
  ControlPanel.mkDragState (ControlPanel.mkPoint 24 400) false
                           (ControlPanel.mkPoint 0 0).

(** A hand whose keypoint list stops after the index fingertip. *)
Definition shortHand : list GestureController.Landmark := firstn 9 sampleHand.

(** The locked pose for the camera of [sampleFrame _ 0]. *)
Definition sampleLocked : @App.Locked SampleThree.ops :=
  App.mkLocked (App.computeLockedPos (sampleCamera 0) sampleParent)
               (App.computeLockedQuat (sampleCamera 0) sampleParent)
               App.lockedScale.

Definition fortyFourFrames : list (@App.Event SampleThree.ops) :=
  repeat (sampleFrame 0.016 0) 44.

(** No frame of the run threw. *)
Definition completes (es : list (@App.Event SampleThree.ops)) : bool :=
  match App.run sampleWorld es with
  | Some _ => true
  | None => false
  end.

(** The progress of the [i]-th photo group is at least [q]. *)
Definition progressAtLeast (q : Q) (i : nat) (w : @App.World SampleThree.ops) : bool :=
  match nth_error (App.photoGroups w) i with
  | Some (_, st) => Qle_bool q (App.progress st)
  | None => true
  end.

(** * Properties *)

(** ** Comparisons *)

Lemma Qltb_true (a b : Q) : Qltb a b = true <-> a < b.
Proof.
  unfold Qltb. rewrite negb_true_iff.
  split; intro H.
  - apply Qnot_le_lt. intro Hle. apply Qle_bool_iff in Hle. congruence.
  - destruct (Qle_bool b a) eqn:E; [|reflexivity].
    apply Qle_bool_iff in E. lra.
Qed.

Lemma Qltb_false (a b : Q) : Qltb a b = false <-> b <= a.
Proof.
  unfold Qltb. rewrite negb_false_iff. apply Qle_bool_iff.
Qed.

Lemma Qle_bool_false (a b : Q) : Qle_bool a b = false <-> b < a.
Proof.
  rewrite <- Qltb_true. unfold Qltb.
  destruct (Qle_bool a b); simpl; intuition congruence.
Qed.

(** Case analysis on a comparison, recording the order fact in the context. *)
Ltac qcases a b :=
  let E := fresh "E" in
  destruct (Qltb a b) eqn:E;
  [ apply Qltb_true in E | apply Qltb_false in E ].

Ltac qle_cases a b :=
  let E := fresh "E" in
  destruct (Qle_bool a b) eqn:E;
  [ apply Qle_bool_iff in E | apply Qle_bool_false in E ].

(** ** Properties of the gesture controller *)

Lemma spec_clamp_unit_minmax (v : Q) : Qmin (Qmax v 0) 1 == spec_clamp v 0 1.
Proof.
  unfold spec_clamp.
  qcases v 0.
  - rewrite Q.max_r by lra. rewrite Q.min_l by lra. reflexivity.
  - rewrite Q.max_l by lra.
    qcases 1 v.
    + rewrite Q.min_r by lra. reflexivity.
    + rewrite Q.min_l by lra. reflexivity.
Qed.

Lemma spec_clamp_compat (v v' lo hi : Q) :
  v == v' -> spec_clamp v lo hi == spec_clamp v' lo hi.
Proof.
  intro H. unfold spec_clamp.
  qcases v lo; qcases v' lo; try lra.
  qcases hi v; qcases hi v'; lra.
Qed.

Lemma dispersionOfDist_spec (d : Q) :
  GestureController.dispersionOfDist d == spec_clamp ((d - 0.15) / 0.2) 0 1.
Proof.
  unfold GestureController.dispersionOfDist.
  rewrite spec_clamp_unit_minmax.
  apply spec_clamp_compat. field; lra.
Qed.







(** At the four distances the specification lists the code is exact in
    binary64 as well. *)
Lemma listed_distances_are_exact :
  Binary64.toQ (Binary64.dispersionOfDist (Binary64.lit 15 100)) == 0
  /\ Binary64.toQ (Binary64.dispersionOfDist (Binary64.lit 10 100)) == 0
  /\ Binary64.toQ (Binary64.dispersionOfDist (Binary64.lit 35 100)) == 1
  /\ Binary64.toQ (Binary64.dispersionOfDist (Binary64.lit 50 100)) == 1.
Proof. repeat split; vm_compute; reflexivity. Qed.

(** The controller never reports a pinch without a hand. *)
Lemma pinch_implies_hand (sqrt : Q -> Q)
      (landmarks : option (list (list GestureController.Landmark)))
      (sig : GestureController.GestureData) :
  GestureController.interpret sqrt landmarks = Some sig ->
  GestureController.isPinching sig = Some true ->
  GestureController.isHandDetected sig = true.
Proof.
  destruct landmarks as [[|hand others]|]; simpl;
    try (intro H; injection H as <-; discriminate).
  unfold GestureController.handSignal.
  destruct (nth_error hand 0); [|discriminate].
  destruct (nth_error hand 8); [|discriminate].
  destruct (nth_error hand 4); [|discriminate].
  destruct (nth_error hand 12); [|discriminate].
  intro H. injection H as <-. reflexivity.
Qed.

(** C7. When the detector reports zero hands for a processed frame, the
    controller emits isHandDetected = false, dispersion = 0, rotation = 0,
    isPinching = false and the cursor reset to (0, 0); merged into the
    shared record this overwrites whatever cursor and pinch flag were there.
    The legacy controller emits isHandDetected = false, dispersion = 0 and
    the idle spin rotation = 0.1 (its signal has no cursor or pinch field). *)
Theorem hand_lost_reset (sqrt : Q -> Q) (lastVideoTime : Q)
        (landmarks : option (list (list GestureController.Landmark)))
        (env : GestureController.TickEnv)
        (legacyEnv : LegacyGestureController.TickEnv)
        (ref : App.GestureRef) :
  zeroHands landmarks ->
  processesFrame lastVideoTime env = true ->
  GestureController.detect env = GestureController.DetectReturns landmarks ->
  legacyProcessesFrame lastVideoTime legacyEnv = true ->
  LegacyGestureController.detect legacyEnv = GestureController.DetectReturns landmarks ->
  (exists sig,
      GestureController.emitted
        (GestureController.predictWebcam sqrt lastVideoTime env) = Some sig
      /\ GestureController.isHandDetected sig = false
      /\ GestureController.dispersion sig = 0
      /\ GestureController.rotation sig = 0
      /\ GestureController.isPinching sig = Some false
      /\ GestureController.cursor sig = Some (0, 0)
      /\ App.isHandDetected (onUpdate ref (Some sig)) = false
      /\ App.isPinching (onUpdate ref (Some sig)) = Some false
      /\ App.cursor (onUpdate ref (Some sig)) = Some (0, 0))
  /\ (exists sig,
         LegacyGestureController.emitted
           (LegacyGestureController.predictWebcam sqrt lastVideoTime legacyEnv)
         = Some sig
         /\ LegacyGestureController.isHandDetected sig = false
         /\ LegacyGestureController.dispersion sig = 0
         /\ LegacyGestureController.rotation sig = 0.1).
Proof.
  intros Hzero Hproc Hdet Hlproc Hldet.
  unfold processesFrame in Hproc. unfold legacyProcessesFrame in Hlproc.
  repeat (apply andb_prop in Hproc; destruct Hproc as [Hproc ?]).
  repeat (apply andb_prop in Hlproc; destruct Hlproc as [Hlproc ?]).
  split.
  - exists GestureController.handLost.
    unfold GestureController.predictWebcam.
    rewrite Hproc, H2, H1. simpl.
    apply negb_true_iff in H0. rewrite H0, H, Hdet. simpl.
    destruct Hzero as [-> | ->]; simpl; repeat split; reflexivity.
  - exists LegacyGestureController.handLost.
    unfold LegacyGestureController.predictWebcam.
    rewrite Hlproc, H5. simpl.
    apply negb_true_iff in H4. rewrite H4, H3, Hldet. simpl.
    destruct Hzero as [-> | ->]; simpl; repeat split; reflexivity.
Qed.

Lemma hand_lost_reset_witness :
  exists sig,
    GestureController.emitted
      (GestureController.predictWebcam sqrt6 (-1)
         (GestureController.mkTickEnv true true true (sampleVideo 0.04)
            (GestureController.DetectReturns (Some [])))) = Some sig
    /\ GestureController.cursor sig = Some (0, 0).
Proof.
  destruct (hand_lost_reset sqrt6 (-1) (Some [])
              (GestureController.mkTickEnv true true true (sampleVideo 0.04)
                 (GestureController.DetectReturns (Some [])))
              (LegacyGestureController.mkTickEnv true true (sampleVideo 0.04)
                 (GestureController.DetectReturns (Some [])))
              App.initialGestureRef
              (or_intror eq_refl) eq_refl eq_refl eq_refl eq_refl)
    as [[sig (He & _ & _ & _ & _ & Hc & _)] _].
  exists sig. split; assumption.
Defined.

(** C8. While the loop is live, a degenerate video frame (readyState < 2,
    or width or height below 1) or a throwing detection call makes the tick
    emit nothing: the published record stays exactly as it was, and the
    tick has rescheduled itself for the next animation frame. *)
Theorem degenerate_frame_skipped (sqrt : Q -> Q) (lastVideoTime : Q)
        (env : GestureController.TickEnv) (ref : App.GestureRef) :
  GestureController.isRunning env = true ->
  GestureController.degenerate (GestureController.video env) = true
  \/ GestureController.detect env = GestureController.DetectThrows ->
  let r := GestureController.predictWebcam sqrt lastVideoTime env in
  GestureController.emitted r = None
  /\ onUpdate ref (GestureController.emitted r) = ref
  /\ GestureController.rescheduled r = true.
Proof.
  intros Hrun Hbad r.
  assert (H : GestureController.emitted r = None
              /\ GestureController.rescheduled r = true).
  { subst r. unfold GestureController.predictWebcam. rewrite Hrun. simpl.
    destruct (negb (GestureController.handLandmarker env)
              || negb (GestureController.canvasMounted env)); [now split|].
    destruct Hbad as [Hdeg | Hthrow].
    - rewrite Hdeg. now split.
    - destruct (GestureController.degenerate (GestureController.video env));
        [now split|].
      destruct (negb (Qeq_bool _ _)); [|now split].
      rewrite Hthrow. now split. }
  destruct H as [He Hr]. rewrite He. repeat split; assumption.
Qed.

Lemma degenerate_frame_skipped_witness :
  let r := GestureController.predictWebcam sqrt6 (-1)
             (GestureController.mkTickEnv true true true
                (GestureController.mkVideo 1 0 0 0.04)
                (GestureController.DetectReturns (Some [sampleHand]))) in
  GestureController.emitted r = None
  /\ onUpdate App.initialGestureRef (GestureController.emitted r)
     = App.initialGestureRef
  /\ GestureController.rescheduled r = true.
Proof.
  apply (degenerate_frame_skipped sqrt6 (-1)
           (GestureController.mkTickEnv true true true
              (GestureController.mkVideo 1 0 0 0.04)
              (GestureController.DetectReturns (Some [sampleHand])))
           App.initialGestureRef eq_refl (or_introl eq_refl)).
Defined.

(** ** Rotation and selection *)

Section Traces.
Context {three : ThreeOps}.

(** *** Rotation *)





(** *** Selection *)

Lemma photosOf_step (w w' : App.World) (e : App.Event) :
  App.step w e = Some w' -> App.photosOf w' = App.photosOf w.
Proof.
  destruct e; simpl; intro H.
  - unfold App.renderFrame in H.
    destruct (App.sceneSelect _ _ _ _); [|discriminate].
    injection H as <-. unfold App.photosOf. simpl.
    rewrite map_map. reflexivity.
  - injection H as <-. reflexivity.
  - injection H as <-. unfold App.click.
    destruct (App.interactionMode w); [|reflexivity].
    destruct (nth_error (App.photosOf w) index); reflexivity.
  - injection H as <-. reflexivity.
  - injection H as <-. reflexivity.
Qed.



Lemma beforeFrames_cons (P : App.World -> Prop) (w w1 : App.World)
      (e : App.Event) (es : list App.Event) :
  beforeFrames P w (e :: es) -> App.step w e = Some w1 ->
  (isRenderFrame e = true -> P w) /\ beforeFrames P w1 es.
Proof. cbn [beforeFrames]. intros [Hnow Hlater] H. rewrite H in Hlater. tauto. Qed.

Lemma releases_true (mode : App.InteractionMode) (ref : App.GestureRef) :
  App.releases mode ref = true ->
  mode = App.GESTURE
  /\ App.isHandDetected ref = true
  /\ (App.truthyFlag (App.isPinching ref) = false
      \/ App.dispersion ref <= 0.3).
Proof.
  unfold App.releases. destruct mode; [discriminate|].
  intro H. apply andb_prop in H. destruct H as [H Hrel].
  apply andb_prop in H. destruct H as [Hhand _].
  repeat split; try assumption.
  apply orb_prop in Hrel. destruct Hrel as [Hp | Hd].
  - left. apply negb_true_iff. assumption.
  - right. apply Qle_bool_iff. assumption.
Qed.

(** C10. A render frame in gesture mode on which no hand is detected
    leaves focusedId as it is.  A focused id is only cleared by a render
    frame in gesture mode with a hand detected and either no pinch or a
    dispersion of at most 0.3, by a click on the focused photo in mouse
    mode, or by a pointer-missed event. *)
Theorem focus_survives_hand_loss (w w' : App.World) (e : App.Event) :
  App.step w e = Some w' ->
  (isRenderFrame e = true ->
   App.interactionMode w = App.GESTURE ->
   App.isHandDetected (App.gestureRef w) = false ->
   App.focusedId (App.gestureRef w') = App.focusedId (App.gestureRef w))
  /\ (forall a,
        App.focusedId (App.gestureRef w) = Some a ->
        App.focusedId (App.gestureRef w') = None ->
        (isRenderFrame e = true
         /\ App.interactionMode w = App.GESTURE
         /\ App.isHandDetected (App.gestureRef w) = true
         /\ (App.truthyFlag (App.isPinching (App.gestureRef w)) = false
             \/ App.dispersion (App.gestureRef w) <= 0.3))
        \/ (exists index photo,
               e = App.Click index
               /\ App.interactionMode w = App.MOUSE
               /\ nth_error (App.photosOf w) index = Some photo
               /\ App.Photo.id photo = a)
        \/ e = App.PointerMissed).
Proof.
  intro Hstep. split.
  - intros Hframe Hmode Hhand.
    destruct e; try discriminate. simpl in Hstep.
    unfold App.renderFrame, App.sceneSelect, App.selects, App.releases in Hstep.
    rewrite Hmode, Hhand in Hstep. simpl in Hstep.
    injection Hstep as <-. reflexivity.
  - intros a Hfocus Hclear.
    destruct e; simpl in Hstep.
    + left. unfold App.renderFrame, App.sceneSelect in Hstep.
      destruct (App.selects _ _).
      * destruct (App.randomPhoto _ _); [|discriminate].
        injection Hstep as <-. discriminate.
      * destruct (App.releases _ _) eqn:Hrel.
        -- apply releases_true in Hrel. tauto.
        -- injection Hstep as <-. simpl in Hclear. congruence.
    + injection Hstep as <-. simpl in Hclear. congruence.
    + right. left. injection Hstep as <-. unfold App.click in Hclear.
      destruct (App.interactionMode w) eqn:Hmode; [|congruence].
      destruct (nth_error (App.photosOf w) index) as [photo|] eqn:Hnth;
        [|congruence].
      simpl in Hclear.
      destruct (App.isId _ _) eqn:Hid; [|discriminate].
      exists index, photo. repeat split; try assumption.
      rewrite Hfocus in Hid. simpl in Hid.
      apply String.eqb_eq in Hid. congruence.
    + right. right. reflexivity.
    + injection Hstep as <-. simpl in Hclear. congruence.
Qed.

Lemma randomPhoto_in_range (photos : list App.PhotoData) (random : Q) :
  photos <> [] -> 0 <= random -> random < 1 ->
  exists photo, App.randomPhoto photos random = Some photo /\ In photo photos.
Proof.
  intros Hne H0 H1. unfold App.randomPhoto.
  set (n := Z.of_nat (List.length photos)).
  assert (Hn : (0 < n)%Z).
  { subst n. destruct photos; [congruence|]. simpl List.length. lia. }
  assert (Hnq : 0 < inject_Z n) by (change 0 with (inject_Z 0); rewrite <- Zlt_Qlt; exact Hn).
  set (k := Qfloor (random * inject_Z n)).
  assert (Hk0 : (0 <= k)%Z).
  { subst k. change 0%Z with (Qfloor 0). apply Qfloor_resp_le. nra. }
  assert (Hkn : (k < n)%Z).
  { subst k. rewrite Zlt_Qlt.
    apply Qle_lt_trans with (random * inject_Z n); [apply Qfloor_le|nra]. }
  destruct (k <? 0)%Z eqn:Hneg; [apply Z.ltb_lt in Hneg; lia|].
  destruct (nth_error photos (Z.to_nat k)) as [photo|] eqn:Hnth.
  - exists photo. split; [reflexivity|]. eapply nth_error_In; eassumption.
  - apply nth_error_None in Hnth. subst n. lia.
Qed.

Lemma truthyId_nonempty (s : string) :
  s <> EmptyString -> App.truthyId (Some s) = true.
Proof.
  intro H. simpl. apply negb_true_iff. apply String.eqb_neq. assumption.
Qed.




End Traces.

(** ** One step of the focus transition *)

Section Focus.
Context {three : ThreeOps}.

(** *** One step of the progress *)

Lemma lerp_spec_smooth (x y t : Q) : MathUtils.lerp x y t == spec_smooth x y t.
Proof. unfold MathUtils.lerp, spec_smooth. ring. Qed.

Lemma updateProgress_cases (p target delta : Q) :
  (App.updateProgress p target delta = target
   /\ Qabs (MathUtils.lerp p target (10 * delta) - target) < 0.01)
  \/ (App.updateProgress p target delta = MathUtils.lerp p target (10 * delta)
      /\ 0.01 <= Qabs (MathUtils.lerp p target (10 * delta) - target)).
Proof.
  unfold App.updateProgress.
  qcases (Qabs (MathUtils.lerp p target (10 * delta) - target)) 0.01;
    [left | right]; split; (reflexivity || assumption).
Qed.

Lemma updateProgress_up (p delta : Q) :
  0 <= p <= 1 -> 0 < 10 * delta <= 1 ->
  p <= App.updateProgress p 1 delta <= 1
  /\ (p < 1 -> p < App.updateProgress p 1 delta).
Proof.
  intros Hp Ht.
  destruct (updateProgress_cases p 1 delta) as [[-> _] | [-> _]].
  - split; lra.
  - unfold MathUtils.lerp. split; [|intro]; nra.
Qed.

Lemma updateProgress_down (p delta : Q) :
  0 <= p <= 1 -> 0 < 10 * delta <= 1 ->
  0 <= App.updateProgress p 0 delta <= p
  /\ (0 < p -> App.updateProgress p 0 delta < p).
Proof.
  intros Hp Ht.
  destruct (updateProgress_cases p 0 delta) as [[-> _] | [-> _]].
  - split; lra.
  - unfold MathUtils.lerp. split; [|intro]; nra.
Qed.

Lemma contraction (a d e : Q) :
  -1 <= a <= 1 -> - e < d < e -> - e < a * d < e.
Proof.
  intros Ha Hd.
  destruct (Qlt_le_dec a 0), (Qlt_le_dec d 0); split; nra.
Qed.

Lemma updateProgress_snaps (p target delta : Q) :
  Qabs (p - target) < 0.01 -> 0 <= 10 * delta <= 2 ->
  App.updateProgress p target delta = target.
Proof.
  intros Hnear Ht.
  destruct (updateProgress_cases p target delta) as [[H _] | [_ Hfar]];
    [assumption|exfalso].
  apply Qabs_Qlt_condition in Hnear.
  assert (Hlt : Qabs (MathUtils.lerp p target (10 * delta) - target) < 0.01).
  { apply Qabs_Qlt_condition.
    assert (Heq : MathUtils.lerp p target (10 * delta) - target
                  == (1 - 10 * delta) * (p - target))
      by (unfold MathUtils.lerp; ring).
    rewrite Heq. apply contraction; [lra|assumption]. }
  lra.
Qed.

Lemma targetProgress_cases (ref : App.GestureRef) (photo : App.PhotoData) :
  (App.isId (App.focusedId ref) (App.Photo.id photo) = true
   /\ App.targetProgress ref photo = 1)
  \/ (App.isId (App.focusedId ref) (App.Photo.id photo) = false
      /\ App.targetProgress ref photo = 0).
Proof.
  unfold App.targetProgress.
  destruct (App.isId _ _); [left | right]; split; reflexivity.
Qed.

(** *** One frame of a photo group *)

Lemma photoFrame_progress (photo : App.PhotoData) (mode : App.InteractionMode)
      (ref : App.GestureRef) (delta : Q) (camera : App.Camera)
      (parent : option App.Parent) (st : App.PhotoState) :
  App.group st <> None ->
  App.progress (App.photoFrame photo mode ref delta camera parent st)
  = App.updateProgress (App.progress st) (App.targetProgress ref photo) delta.
Proof.
  intro Hg. unfold App.photoFrame.
  destruct (App.group st); [|congruence].
  destruct (Qltb _ 0.001); [reflexivity|].
  destruct (App.lockedTarget _ _ _ _ _ _) as [[? ?] ?]. reflexivity.
Qed.

Lemma photoFrame_mounted (photo : App.PhotoData) (mode : App.InteractionMode)
      (ref : App.GestureRef) (delta : Q) (camera : App.Camera)
      (parent : option App.Parent) (st : App.PhotoState) :
  App.group st <> None ->
  App.group (App.photoFrame photo mode ref delta camera parent st) <> None.
Proof.
  intro Hg. unfold App.photoFrame.
  destruct (App.group st); [|congruence].
  destruct (Qltb _ 0.001); [discriminate|].
  destruct (App.lockedTarget _ _ _ _ _ _) as [[? ?] ?]. discriminate.
Qed.

Lemma photoFrame_caches (photo : App.PhotoData) (mode : App.InteractionMode)
      (ref : App.GestureRef) (delta : Q) (camera : App.Camera)
      (parent : App.Parent) (st : App.PhotoState) :
  App.group st <> None ->
  0.99 <= App.progress
            (App.photoFrame photo mode ref delta camera (Some parent) st) ->
  App.lockedState
    (App.photoFrame photo mode ref delta camera (Some parent) st) <> None.
Proof.
  intro Hg. unfold App.photoFrame.
  destruct (App.group st); [|congruence].
  set (p := App.updateProgress _ _ _).
  qcases p 0.001.
  - simpl. intro. lra.
  - unfold App.lockedTarget.
    qle_cases 0.99 p.
    + destruct (App.lockedState st); simpl; discriminate.
    + simpl. intro. lra.
Qed.

Lemma photoFrame_inv (photo : App.PhotoData) (mode : App.InteractionMode)
      (ref : App.GestureRef) (delta : Q) (camera : App.Camera)
      (parent : App.Parent) (st : App.PhotoState) :
  0 < 10 * delta <= 1 -> photoInv st ->
  photoInv (App.photoFrame photo mode ref delta camera (Some parent) st).
Proof.
  intros Ht (Hg & Hp & _).
  split; [apply photoFrame_mounted; assumption|].
  split; [|apply photoFrame_caches; assumption].
  rewrite photoFrame_progress by assumption.
  destruct (targetProgress_cases ref photo) as [[_ ->] | [_ ->]].
  - destruct (updateProgress_up _ _ Hp Ht). lra.
  - destruct (updateProgress_down _ _ Hp Ht). lra.
Qed.

(** *** The invariant along a run *)

Lemma initialWorld_inv (photos : list App.PhotoData) :
  worldInv (App.initialWorld photos).
Proof.
  unfold worldInv, App.initialWorld. simpl.
  apply Forall_forall. intros g Hin.
  apply in_map_iff in Hin. destruct Hin as (photo & <- & _).
  simpl. repeat split; simpl; try discriminate; try lra.
Qed.

Lemma step_inv (w w' : App.World) (e : App.Event) :
  smoothFrame e -> App.step w e = Some w' -> worldInv w -> worldInv w'.
Proof.
  unfold worldInv. intros Hsmooth Hstep Hinv.
  destruct e; simpl in Hstep.
  - unfold App.renderFrame in Hstep.
    destruct (App.sceneSelect _ _ _ _) as [ref|]; [|discriminate].
    injection Hstep as <-. simpl.
    apply Forall_forall. intros g Hin.
    apply in_map_iff in Hin. destruct Hin as (g0 & <- & Hin0).
    simpl. apply photoFrame_inv; [exact Hsmooth|].
    rewrite Forall_forall in Hinv. apply (Hinv g0 Hin0).
  - injection Hstep as <-. exact Hinv.
  - injection Hstep as <-. unfold App.click.
    destruct (App.interactionMode w); [|exact Hinv].
    destruct (nth_error (App.photosOf w) index); exact Hinv.
  - injection Hstep as <-. exact Hinv.
  - injection Hstep as <-. exact Hinv.
Qed.

Lemma run_inv (es : list App.Event) :
  forall w w',
    Forall smoothFrame es -> App.run w es = Some w' ->
    worldInv w -> worldInv w'.
Proof.
  induction es as [|e es IH]; intros w w' Hsmooth Hrun Hinv.
  - simpl in Hrun. injection Hrun as <-. exact Hinv.
  - inversion Hsmooth as [|? ? He Hes]; subst.
    cbn [App.run] in Hrun.
    destruct (App.step w e) as [w1|] eqn:Hstep; [|discriminate].
    apply (IH w1 w' Hes Hrun). apply (step_inv w w1 e He Hstep Hinv).
Qed.

Lemma reachable_inv (photos : list App.PhotoData) (es : list App.Event)
      (w : App.World) :
  Forall smoothFrame es -> App.run (App.initialWorld photos) es = Some w ->
  worldInv w.
Proof.
  intros Hsmooth Hrun.
  apply (run_inv es _ _ Hsmooth Hrun). apply initialWorld_inv.
Qed.

Lemma worldInv_nth (w : App.World) (i : nat) (photo : App.PhotoData)
      (st : App.PhotoState) :
  worldInv w -> nth_error (App.photoGroups w) i = Some (photo, st) ->
  photoInv st.
Proof.
  unfold worldInv. intros Hinv Hnth. rewrite Forall_forall in Hinv.
  apply (Hinv (photo, st)). eapply nth_error_In. eassumption.
Qed.

(** The photo groups after a render frame, position by position. *)
Lemma renderFrame_nth (env : App.RenderEnv) (w w' : App.World) (i : nat)
      (photo : App.PhotoData) (st : App.PhotoState) :
  App.renderFrame env w = Some w' ->
  nth_error (App.photoGroups w) i = Some (photo, st) ->
  nth_error (App.photoGroups w') i
  = Some (photo,
          App.photoFrame photo (App.interactionMode w) (App.gestureRef w')
                         (App.delta env) (App.camera env)
                         (Some (App.photosParent env)) st).
Proof.
  unfold App.renderFrame. intros Hframe Hnth.
  destruct (App.sceneSelect _ _ _ _) as [ref|]; [|discriminate].
  injection Hframe as <-. simpl.
  rewrite nth_error_map, Hnth. reflexivity.
Qed.

End Focus.

(** ** Bounds and monotonicity of the progress *)

Section ProgressProperties.
Context {three : ThreeOps}.

(** C4 (as the code has it). Starting from progress 0, over every run
    whose frames have a blend factor 10 * delta in (0, 1], the progress of
    every photo stays within [0, 1]. *)
Theorem progress_within_unit_interval (photos : list App.PhotoData)
        (es : list App.Event) (w : App.World) (i : nat)
        (photo : App.PhotoData) (st : App.PhotoState) :
  Forall smoothFrame es ->
  App.run (App.initialWorld photos) es = Some w ->
  nth_error (App.photoGroups w) i = Some (photo, st) ->
  0 <= App.progress st <= 1.
Proof.
  intros Hsmooth Hrun Hnth.
  apply (worldInv_nth w i photo st (reachable_inv photos es w Hsmooth Hrun))
    in Hnth.
  destruct Hnth as (_ & Hp & _). exact Hp.
Qed.

(** C1. Along every run from the initial state whose frames have a blend
    factor 10 * delta in (0, 1], on each render frame the photo whose id is
    focusedId has a progress that does not decrease and stays at most 1
    (it increases while below 1), every other photo has a progress that
    does not increase and stays at least 0 (it decreases while above 0),
    and no two photos with different ids both increase. *)
Theorem single_focus_monotone (photos : list App.PhotoData)
        (es : list App.Event) (w w' : App.World) (env : App.RenderEnv) :
  Forall smoothFrame es ->
  App.run (App.initialWorld photos) es = Some w ->
  0 < 10 * App.delta env <= 1 ->
  App.renderFrame env w = Some w' ->
  (forall i photo st,
      nth_error (App.photoGroups w) i = Some (photo, st) ->
      exists st',
        nth_error (App.photoGroups w') i = Some (photo, st')
        /\ (App.isId (App.focusedId (App.gestureRef w')) (App.Photo.id photo)
            = true ->
            App.progress st <= App.progress st' <= 1
            /\ (App.progress st < 1 -> App.progress st < App.progress st'))
        /\ (App.isId (App.focusedId (App.gestureRef w')) (App.Photo.id photo)
            = false ->
            0 <= App.progress st' <= App.progress st
            /\ (0 < App.progress st -> App.progress st' < App.progress st)))
  /\ (forall i j photo1 st1 st1' photo2 st2 st2',
         nth_error (App.photoGroups w) i = Some (photo1, st1) ->
         nth_error (App.photoGroups w') i = Some (photo1, st1') ->
         nth_error (App.photoGroups w) j = Some (photo2, st2) ->
         nth_error (App.photoGroups w') j = Some (photo2, st2') ->
         App.Photo.id photo1 <> App.Photo.id photo2 ->
         ~ (App.progress st1 < App.progress st1'
            /\ App.progress st2 < App.progress st2')).
Proof.
  intros Hsmooth Hrun Ht Hframe.
  pose proof (reachable_inv photos es w Hsmooth Hrun) as Hinv.
  assert (Hone : forall i photo st,
    nth_error (App.photoGroups w) i = Some (photo, st) ->
    exists st',
      nth_error (App.photoGroups w') i = Some (photo, st')
      /\ (App.isId (App.focusedId (App.gestureRef w')) (App.Photo.id photo)
          = true ->
          App.progress st <= App.progress st' <= 1
          /\ (App.progress st < 1 -> App.progress st < App.progress st'))
      /\ (App.isId (App.focusedId (App.gestureRef w')) (App.Photo.id photo)
          = false ->
          0 <= App.progress st' <= App.progress st
          /\ (0 < App.progress st -> App.progress st' < App.progress st))).
  { intros i photo st Hnth.
    destruct (worldInv_nth w i photo st Hinv Hnth) as (Hg & Hp & _).
    eexists. split; [apply (renderFrame_nth env w w' i photo st Hframe Hnth)|].
    rewrite photoFrame_progress by assumption.
    destruct (targetProgress_cases (App.gestureRef w') photo)
      as [[Hid ->] | [Hid ->]]; rewrite Hid; split; intro H;
      try discriminate.
    - apply updateProgress_up; assumption.
    - apply updateProgress_down; assumption. }
  split; [exact Hone|].
  intros i j photo1 st1 st1' photo2 st2 st2' H1 H1' H2 H2' Hdiff [Hup1 Hup2].
  destruct (Hone i photo1 st1 H1) as (s1 & Hs1 & _ & Hdown1).
  destruct (Hone j photo2 st2 H2) as (s2 & Hs2 & _ & Hdown2).
  rewrite H1' in Hs1. injection Hs1 as <-.
  rewrite H2' in Hs2. injection Hs2 as <-.
  destruct (App.isId (App.focusedId (App.gestureRef w')) (App.Photo.id photo1))
    eqn:Hid1.
  - destruct (App.isId (App.focusedId (App.gestureRef w'))
                       (App.Photo.id photo2)) eqn:Hid2.
    + apply Hdiff. unfold App.isId in Hid1, Hid2.
      destruct (App.focusedId (App.gestureRef w')); [|discriminate].
      apply String.eqb_eq in Hid1, Hid2. congruence.
    + destruct (Hdown2 eq_refl). lra.
  - destruct (Hdown1 eq_refl). lra.
Qed.

(** C3 (as the code has it). Both smoothed quantities take the step
    previous + (target - previous) * rate: the dispersion uniform with
    rate 0.1, the progress with rate 10 * delta.  The snap rule is applied
    to the progress only: the progress is set to its target whenever the
    stepped value is within 0.01 of it, and in particular a progress
    already within 0.01 of an unchanged target equals the target after one
    more frame, provided the blend factor 10 * delta is in [0, 2]. *)
Theorem smoothing_step_and_snap (mode : App.InteractionMode)
        (ref : App.GestureRef) (uDispersion delta : Q)
        (photo : App.PhotoData) (camera : App.Camera)
        (parent : option App.Parent) (st : App.PhotoState) :
  App.group st <> None ->
  0 <= 10 * delta <= 2 ->
  let target := App.targetProgress ref photo in
  let stepped := spec_smooth (App.progress st) target (10 * delta) in
  let st' := App.photoFrame photo mode ref delta camera parent st in
  App.particlesFrame mode ref uDispersion
  == spec_smooth uDispersion (App.targetDispersion mode ref) 0.1
  /\ (Qabs (stepped - target) < 0.01 -> App.progress st' = target)
  /\ (0.01 <= Qabs (stepped - target) -> App.progress st' == stepped)
  /\ (Qabs (App.progress st - target) < 0.01 -> App.progress st' = target).
Proof.
  intros Hg Ht target stepped st'.
  subst st'. rewrite photoFrame_progress by assumption. fold target.
  assert (Hs : MathUtils.lerp (App.progress st) target (10 * delta) == stepped)
    by apply lerp_spec_smooth.
  split; [apply lerp_spec_smooth|].
  destruct (updateProgress_cases (App.progress st) target delta)
    as [[Heq Hnear] | [Heq Hfar]]; rewrite Hs in *.
  - repeat split; intro H; try assumption. lra.
  - repeat split; intro H.
    + lra.
    + rewrite Heq. exact Hs.
    + apply updateProgress_snaps; assumption.
Qed.

End ProgressProperties.

(** ** The locked pose *)

Section LockedPose.
Context {three : ThreeOps}.

(** The endpoint behaviour of three.js [slerp]: at [t = 1] the result is
    a copy of the second quaternion. *)
Hypothesis slerp_at_one :
  forall (qa qb : Quaternion) (t : Q), t == 1 -> slerpQuaternions qa qb t = qb.

Lemma showsLocked_nearlyLocked (photo : App.PhotoData) (d : Q)
      (l : App.Locked) (st : App.PhotoState) :
  showsLocked photo d l st -> nearlyLocked l st.
Proof.
  intros (Hp & Hl & Hg). unfold nearlyLocked.
  rewrite Hp, Hl, Hg. repeat split; try lra. discriminate.
Qed.

Lemma updateProgress_locks (p delta : Q) :
  0.99 <= p <= 1 -> 0 < 10 * delta <= 1 -> App.updateProgress p 1 delta = 1.
Proof.
  intros Hp Ht.
  destruct (updateProgress_cases p 1 delta) as [[H _] | [_ Hfar]];
    [assumption|exfalso].
  assert (Hlt : Qabs (MathUtils.lerp p 1 (10 * delta) - 1) < 0.01).
  { apply Qabs_Qlt_condition. unfold MathUtils.lerp. split; nra. }
  lra.
Qed.

Lemma renderFrame_mode (env : App.RenderEnv) (w w' : App.World) :
  App.renderFrame env w = Some w' ->
  App.interactionMode w' = App.interactionMode w.
Proof.
  unfold App.renderFrame. intro Hframe.
  destruct (App.sceneSelect _ _ _ _) as [ref|]; [|discriminate].
  injection Hframe as <-. reflexivity.
Qed.

(** One frame on a photo that is focused, has reached 0.99 and has a
    cached pose: the progress is snapped to 1, the cache is kept, and the
    transform is built from the cache, not from the camera. *)
Lemma photoFrame_locked (photo : App.PhotoData) (mode : App.InteractionMode)
      (ref : App.GestureRef) (delta : Q) (camera : App.Camera)
      (parent : option App.Parent) (st : App.PhotoState) (l : App.Locked) :
  nearlyLocked l st ->
  App.isId (App.focusedId ref) (App.Photo.id photo) = true ->
  0 < 10 * delta <= 1 ->
  showsLocked photo (App.activeDispersion mode ref) l
              (App.photoFrame photo mode ref delta camera parent st).
Proof.
  intros (Hp & Hl & Hg) Hid Ht.
  unfold App.photoFrame.
  destruct (App.group st) as [g0|]; [|congruence].
  unfold App.targetProgress. rewrite Hid.
  rewrite (updateProgress_locks _ _ Hp Ht).
  change (Qltb 1 0.001) with false. cbv iota.
  unfold App.lockedTarget.
  change (Qle_bool 0.99 1) with true. rewrite Hl. cbv iota beta.
  unfold showsLocked, lockedPose.
  cbn [App.progress App.lockedState App.group].
  split; [reflexivity|]. split; [reflexivity|].
  rewrite (slerp_at_one _ _ 1) by reflexivity. reflexivity.
Qed.

Lemma clock_is_smooth (e : App.Event) : clockFrame e -> smoothFrame e.
Proof.
  destruct e; simpl; try (intros; exact I). intros [Hlo Hhi]. split; lra.
Qed.

Lemma step_photoGroups_other (w w' : App.World) (e : App.Event) :
  isRenderFrame e = false -> App.step w e = Some w' ->
  App.photoGroups w' = App.photoGroups w.
Proof.
  destruct e; simpl; try discriminate; intros _ H; injection H as <-;
    try reflexivity.
  unfold App.click.
  destruct (App.interactionMode w); [|reflexivity].
  destruct (nth_error (App.photosOf w) index); reflexivity.
Qed.

(** Along a run that ends with a render frame, a photo that has reached
    0.99 with [l] in its cache and stays focused shows the pose of [l]
    after that frame. *)
Lemma locked_along_run (i : nat) (photo : App.PhotoData) (l : App.Locked)
      (env : App.RenderEnv) (es : list App.Event) :
  forall w w' st,
    nth_error (App.photoGroups w) i = Some (photo, st) ->
    nearlyLocked l st ->
    Forall clockFrame (es ++ [App.RenderFrame env]) ->
    afterFrames (fun s => App.isId (App.focusedId (App.gestureRef s))
                                   (App.Photo.id photo) = true)
                w (es ++ [App.RenderFrame env]) ->
    App.run w (es ++ [App.RenderFrame env]) = Some w' ->
    exists st',
      nth_error (App.photoGroups w') i = Some (photo, st')
      /\ showsLocked photo
           (App.activeDispersion (App.interactionMode w') (App.gestureRef w'))
           l st'.
Proof.
  induction es as [|e es IH]; intros w w' st Hnth Hnear Hclock Hheld Hrun.
  - cbn [app App.run] in Hrun. cbn [app afterFrames] in Hheld.
    cbn [app] in Hclock. inversion Hclock as [|? ? He _]; subst.
    destruct (App.step w (App.RenderFrame env)) as [w1|] eqn:Hstep;
      [|discriminate].
    injection Hrun as <-. destruct Hheld as [Hnow _].
    cbn [App.step] in Hstep.
    exists (App.photoFrame photo (App.interactionMode w) (App.gestureRef w1)
              (App.delta env) (App.camera env)
              (Some (App.photosParent env)) st).
    split; [apply (renderFrame_nth env w w1 i photo st Hstep Hnth)|].
    rewrite (renderFrame_mode env w w1 Hstep).
    apply photoFrame_locked;
      [assumption|apply Hnow; reflexivity|apply (clock_is_smooth _ He)].
  - cbn [app] in Hclock, Hheld, Hrun.
    inversion Hclock as [|? ? He Hes]; subst.
    cbn [App.run] in Hrun. cbn [afterFrames] in Hheld.
    destruct (App.step w e) as [w1|] eqn:Hstep; [|discriminate].
    destruct Hheld as [Hnow Hlater].
    destruct (isRenderFrame e) eqn:Hframe.
    + destruct e as [env1| | | |]; try discriminate.
      cbn [App.step] in Hstep.
      pose proof (renderFrame_nth env1 w w1 i photo st Hstep Hnth) as Hnth1.
      pose proof (photoFrame_locked photo (App.interactionMode w)
                    (App.gestureRef w1) (App.delta env1) (App.camera env1)
                    (Some (App.photosParent env1)) st l Hnear
                    (Hnow eq_refl) (clock_is_smooth _ He)) as Hshow.
      apply (IH w1 w' _ Hnth1 (showsLocked_nearlyLocked _ _ _ _ Hshow)
                Hes Hlater Hrun).
    + rewrite <- (step_photoGroups_other w w1 e Hframe Hstep) in Hnth.
      apply (IH w1 w' st Hnth Hnear Hes Hlater Hrun).
Qed.

(** C2 (as the code has it). Along a run from the initial state whose
    frames all have a blend factor 10 * delta in (0, 1]: once the progress
    of photo A is at least 0.99, a locked pose is cached, and as long as
    focusedId equals A's id on every later frame and those frames last
    between 1 ms and 100 ms, after each of them A's progress is exactly 1,
    the cache is the same one, and the transform written to A's group is
    the blend at alpha = 1 of A's tree pose with the cached position and
    the focused scale (3, 3, 3), together with the cached orientation.
    That transform is built from the cache and the active dispersion of
    the frame alone: it is the same whatever the camera and the parent
    frame are. *)
Theorem locked_pose_stable (photos : list App.PhotoData)
        (es0 : list App.Event) (w0 : App.World) (i : nat)
        (photo : App.PhotoData) (st0 : App.PhotoState) :
  Forall smoothFrame es0 ->
  App.run (App.initialWorld photos) es0 = Some w0 ->
  nth_error (App.photoGroups w0) i = Some (photo, st0) ->
  0.99 <= App.progress st0 ->
  exists l,
    App.lockedState st0 = Some l
    /\ forall es env w,
        Forall clockFrame (es ++ [App.RenderFrame env]) ->
        afterFrames (fun s => App.isId (App.focusedId (App.gestureRef s))
                                       (App.Photo.id photo) = true)
                    w0 (es ++ [App.RenderFrame env]) ->
        App.run w0 (es ++ [App.RenderFrame env]) = Some w ->
        exists st,
          nth_error (App.photoGroups w) i = Some (photo, st)
          /\ App.progress st = 1
          /\ App.lockedState st = Some l
          /\ App.group st
             = Some (lockedPose photo
                       (App.activeDispersion (App.interactionMode w)
                                             (App.gestureRef w)) l).
Proof.
  intros Hsmooth0 Hrun0 Hnth0 Hreached.
  destruct (worldInv_nth w0 i photo st0
              (reachable_inv photos es0 w0 Hsmooth0 Hrun0) Hnth0)
    as (Hg & Hp & Hcache).
  destruct (App.lockedState st0) as [l|] eqn:Hl;
    [|exfalso; apply (Hcache Hreached); reflexivity].
  exists l. split; [reflexivity|].
  intros es env w Hclock Hheld Hrun.
  assert (Hnear : nearlyLocked l st0).
  { unfold nearlyLocked. repeat split; try assumption; lra. }
  destruct (locked_along_run i photo l env es w0 w st0 Hnth0 Hnear Hclock
              Hheld Hrun) as (st & Hnth & Hp1 & Hl1 & Hg1).
  exists st. repeat split; assumption.
Qed.

End LockedPose.

(** Over the rationals the blend at alpha = 1 is the cached position and
    the focused scale themselves. *)
Lemma lockedPose_exact {three : ThreeOps} (photo : App.PhotoData) (d : Q)
      (l : App.Locked) :
  Vec3.eqv (App.position (lockedPose photo d l)) (App.pos l)
  /\ Vec3.eqv (App.scale (lockedPose photo d l)) App.lockedScale.
Proof.
  unfold Vec3.eqv, lockedPose, Vec3.lerpVectors. simpl.
  repeat split; ring.
Qed.

(** *** The locked pose in binary64

    Two facts about doubles that shape the statement above.  A blend
    factor of 10^-15 leaves a progress of 0.99 where it is, and
    [|0.99 - 1| < 0.01] is false for the doubles, so the progress is not
    snapped; a blend factor of 0.01 (a frame of 1 ms) snaps it to 1. *)
Lemma snap_needs_a_frame_time :
  let p := Binary64.lit 99 100 in
  Binary64.lerp p (Binary64.ofZ 1) (Binary64.lit 1 (10 ^ 15)) = p
  /\ Binary64.ltb (Binary64.abs (Binary64.sub p (Binary64.ofZ 1)))
                  (Binary64.lit 1 100) = false
  /\ Binary64.updateProgress p (Binary64.ofZ 1) (Binary64.lit 1 (10 ^ 16)) = p
  /\ Binary64.updateProgress p (Binary64.ofZ 1) (Binary64.lit 1 1000)
     = Binary64.ofZ 1.
Proof. repeat split; vm_compute; reflexivity. Qed.

(** The blend [v1 + (v2 - v1) * 1] of [lerpVectors] is not [v2] in
    binary64 and moves with [v1]: for a photo at x = 3.9 and a cached
    x = 0.7071 the written x lies above the cached one at dispersion 0.01
    and below it at dispersion 0.31. *)
Lemma blend_at_one_is_inexact :
  let cached := Binary64.lit 7071 10000 in
  let written (dispersion : Binary64.float) :=
    Binary64.lerpComponent (Binary64.treeX (Binary64.lit 39 10) dispersion)
                           cached (Binary64.ofZ 1) in
  Binary64.toQ cached < Binary64.toQ (written (Binary64.lit 1 100))
  /\ Binary64.toQ (written (Binary64.lit 31 100)) < Binary64.toQ cached
  /\ Qabs (Binary64.toQ (written (Binary64.lit 1 100)) - Binary64.toQ cached)
     <= 0.000000000001.
Proof. repeat split; vm_compute; first [reflexivity | discriminate]. Qed.

(** ** The theorems at work on the sample scenes *)

(** Closing a numeric side condition on concrete rationals. *)
Ltac qcompute := vm_compute; first [reflexivity | discriminate | exact I].
Lemma sample_slerp_at_one (qa qb : SampleThree.Quat) (t : Q) :
  t == 1 -> SampleThree.blend qa qb t = qb.
Proof.
  intro Ht. unfold SampleThree.blend.
  destruct (Qeq_bool t 0) eqn:E0.
  - apply Qeq_bool_iff in E0. lra.
  - apply Qeq_bool_iff in Ht. rewrite Ht. reflexivity.
Qed.


Lemma progress_within_unit_interval_witness :
  0 <= App.progress
         (stateOf (worldAfter [App.Click 0; sampleFrame 0.05 0; sampleFrame 0.1 0]) 0)
    <= 1.
Proof.
  apply (@progress_within_unit_interval SampleThree.ops [photoA; photoB]
           [App.Click 0; sampleFrame 0.05 0; sampleFrame 0.1 0]
           (worldAfter [App.Click 0; sampleFrame 0.05 0; sampleFrame 0.1 0])
           0%nat photoA).
  - repeat constructor; qcompute.
  - reflexivity.
  - reflexivity.
Defined.

(** C4, as stated, fails: a single frame of 0.2 s (blend factor 2) takes
    the progress of the focused photo from 0 to 2. *)
Lemma progress_overshoots_on_long_frame :
  exists w st,
    App.run sampleWorld [App.Click 0; sampleFrame 0.2 0] = Some w
    /\ nth_error (App.photoGroups w) 0 = Some (photoA, st)
    /\ 0 < 0.2
    /\ App.progress st == 2
    /\ ~ (0 <= App.progress st <= 1).
Proof.
  exists (worldAfter [App.Click 0; sampleFrame 0.2 0]).
  exists (stateOf (worldAfter [App.Click 0; sampleFrame 0.2 0]) 0).
  split; [reflexivity|]. split; [reflexivity|]. split; [reflexivity|].
  split; [reflexivity|].
  intros [_ H]. vm_compute in H. apply H. reflexivity.
Qed.

Lemma single_focus_monotone_witness :
  exists st',
    nth_error (App.photoGroups
                 (worldAfter [App.Click 0; sampleFrame 0.05 0; sampleFrame 0.02 0]))
              0 = Some (photoA, st')
    /\ App.progress (stateOf (worldAfter [App.Click 0; sampleFrame 0.05 0]) 0)
       <= App.progress st' <= 1.
Proof.
  destruct (proj1 (@single_focus_monotone SampleThree.ops [photoA; photoB]
              [App.Click 0; sampleFrame 0.05 0]
              (worldAfter [App.Click 0; sampleFrame 0.05 0])
              (worldAfter [App.Click 0; sampleFrame 0.05 0; sampleFrame 0.02 0])
              (App.mkRenderEnv 0.02 (sampleCamera 0) sampleParent 0.5)
              ltac:(repeat constructor; qcompute) eq_refl
              ltac:(split; qcompute) eq_refl)
             0%nat photoA
             (stateOf (worldAfter [App.Click 0; sampleFrame 0.05 0]) 0) eq_refl)
    as (st' & Hnth & Hup & _).
  exists st'. split; [exact Hnth|]. exact (proj1 (Hup eq_refl)).
Defined.

Lemma smoothing_step_and_snap_witness :
  let ref := App.setFocusedId App.initialGestureRef (Some "photo-1"%string) in
  let st := @App.mkPhotoState SampleThree.ops 0.995 None
              (App.group App.initialPhotoState) in
  App.progress
    (App.photoFrame photoA App.MOUSE ref 0.016 (sampleCamera 0)
                    (Some sampleParent) st) = 1.
Proof.
  intros ref st.
  refine (proj2 (proj2 (proj2
            (@smoothing_step_and_snap SampleThree.ops App.MOUSE ref 0.5 0.016
               photoA (sampleCamera 0) (Some sampleParent) st _ _))) _).
  - discriminate.
  - split; qcompute.
  - qcompute.
Defined.

(** C3, as stated, fails for the dispersion: a uniform at 0.005 with
    target 0 is within 0.01 of its target, yet one more frame leaves it at
    0.0045; only a tenth of the distance is covered and nothing snaps.  For
    the progress the snap needs a bounded frame: with delta = 0.5 s a
    progress of 0.005 (target 0) jumps to -0.02 and is not snapped. *)
Lemma dispersion_uniform_never_snaps :
  (Qabs (0.005 - App.targetDispersion App.GESTURE App.initialGestureRef) < 0.01
   /\ App.particlesFrame App.GESTURE App.initialGestureRef 0.005 == 0.0045
   /\ ~ App.particlesFrame App.GESTURE App.initialGestureRef 0.005
        == App.targetDispersion App.GESTURE App.initialGestureRef)
  /\ (Qabs (0.005 - 0) < 0.01
      /\ App.updateProgress 0.005 0 0.5 == -0.02
      /\ ~ App.updateProgress 0.005 0 0.5 == 0).
Proof.
  repeat split; try reflexivity; intro H; vm_compute in H; discriminate.
Qed.

Lemma locked_pose_stable_witness :
  exists l,
    App.lockedState (stateOf (worldAfter [App.Click 0; sampleFrame 0.1 0]) 0)
    = Some l
    /\ exists st,
        nth_error
          (App.photoGroups
             (worldAfter [App.Click 0; sampleFrame 0.1 0;
                          sampleFrame 0.05 3; sampleFrame 0.02 (-2)])) 0
        = Some (photoA, st)
        /\ App.progress st = 1
        /\ App.lockedState st = Some l
        /\ App.group st = Some (lockedPose photoA 0 l).
Proof.
  destruct (@locked_pose_stable SampleThree.ops sample_slerp_at_one
              [photoA; photoB] [App.Click 0; sampleFrame 0.1 0]
              (worldAfter [App.Click 0; sampleFrame 0.1 0]) 0%nat photoA
              (stateOf (worldAfter [App.Click 0; sampleFrame 0.1 0]) 0)
              ltac:(repeat constructor; qcompute) eq_refl eq_refl
              ltac:(qcompute))
    as (l & Hl & Hall).
  exists l. split; [exact Hl|].
  apply (Hall [sampleFrame 0.05 3]
              (App.mkRenderEnv 0.02 (sampleCamera (-2)) sampleParent 0.5)
              (worldAfter [App.Click 0; sampleFrame 0.1 0;
                           sampleFrame 0.05 3; sampleFrame 0.02 (-2)])).
  - repeat constructor; qcompute.
  - vm_compute. repeat split; reflexivity.
  - reflexivity.
Defined.

(** C2, as stated, fails.  After a long frame (0.2 s) the progress of the
    focused photo is 2, which is at least 0.99; the focus stays on it, and
    on the next two frames the progress is 1.5 and then 1.25, so the scale
    written to the group is 4 and then 3.5.  With a frame of 0.099 s the
    progress lands on 0.99 exactly, is not snapped, and the scale written
    on that frame (2.98) differs from the one of the next frame (3). *)
Lemma locked_pose_drifts :
  let w1 := worldAfter [App.Click 0; sampleFrame 0.2 0] in
  let w2 := worldAfter [App.Click 0; sampleFrame 0.2 0; sampleFrame 0.05 0] in
  let w3 := worldAfter [App.Click 0; sampleFrame 0.2 0; sampleFrame 0.05 0;
                        sampleFrame 0.05 0] in
  let v1 := worldAfter [App.Click 0; sampleFrame 0.099 0] in
  let v2 := worldAfter [App.Click 0; sampleFrame 0.099 0; sampleFrame 0.05 0] in
  (App.run sampleWorld [App.Click 0; sampleFrame 0.2 0; sampleFrame 0.05 0;
                        sampleFrame 0.05 0] = Some w3
   /\ 0.99 <= progressOf w1 0
   /\ App.focusedId (App.gestureRef w1) = Some (App.Photo.id photoA)
   /\ App.focusedId (App.gestureRef w2) = Some (App.Photo.id photoA)
   /\ App.focusedId (App.gestureRef w3) = Some (App.Photo.id photoA)
   /\ vx (scaleOf w2 0) == 4
   /\ vx (scaleOf w3 0) == 3.5
   /\ ~ Vec3.eqv (scaleOf w2 0) (scaleOf w3 0))
  /\ (App.run sampleWorld [App.Click 0; sampleFrame 0.099 0; sampleFrame 0.05 0]
      = Some v2
      /\ 0.99 <= progressOf v1 0
      /\ App.focusedId (App.gestureRef v1) = Some (App.Photo.id photoA)
      /\ App.focusedId (App.gestureRef v2) = Some (App.Photo.id photoA)
      /\ vx (scaleOf v1 0) == 2.98
      /\ vx (scaleOf v2 0) == 3
      /\ ~ Vec3.eqv (scaleOf v1 0) (scaleOf v2 0)).
Proof.
  intros w1 w2 w3 v1 v2.
  split.
  - split; [reflexivity|]. split; [qcompute|].
    repeat (split; [reflexivity|]).
    intros [H _]. vm_compute in H. discriminate.
  - split; [reflexivity|]. split; [qcompute|].
    repeat (split; [reflexivity|]).
    intros [H _]. vm_compute in H. discriminate.
Qed.


Lemma focus_survives_hand_loss_witness :
  let w := worldAfter [App.SetInteractionMode App.GESTURE; updateFor pinchingHand;
                       sampleFrame 0.016 0; handLostUpdate] in
  let w' := worldAfter [App.SetInteractionMode App.GESTURE; updateFor pinchingHand;
                        sampleFrame 0.016 0; handLostUpdate; sampleFrame 0.016 0] in
  App.isHandDetected (App.gestureRef w) = false
  /\ App.focusedId (App.gestureRef w) = Some "photo-2"%string
  /\ App.focusedId (App.gestureRef w') = App.focusedId (App.gestureRef w).
Proof.
  intros w w'.
  split; [reflexivity|]. split; [reflexivity|].
  apply (proj1 (@focus_survives_hand_loss SampleThree.ops w w'
                  (sampleFrame 0.016 0) eq_refl)); reflexivity.
Defined.

(** * Further properties *)

(** ** The gesture controller *)

Lemma dispersionOfDist_linear (d : Q) :
  GestureController.dispersionOfDist d == spec_clamp ((d - 0.15) * 5) 0 1.
Proof.
  rewrite dispersionOfDist_spec. apply spec_clamp_compat. field.
Qed.

Lemma dispersionOfDist_monotone (d1 d2 : Q) :
  d1 <= d2 ->
  0 <= GestureController.dispersionOfDist d1
  /\ GestureController.dispersionOfDist d1 <= GestureController.dispersionOfDist d2
  /\ GestureController.dispersionOfDist d2 <= 1.
Proof.
  intro Hle. rewrite !dispersionOfDist_linear. unfold spec_clamp.
  qcases ((d1 - 0.15) * 5) 0; qcases ((d2 - 0.15) * 5) 0;
    try qcases 1 ((d1 - 0.15) * 5); try qcases 1 ((d2 - 0.15) * 5);
    repeat split; lra.
Qed.



Lemma handSignal_fields (sqrt : Q -> Q) (hand : list GestureController.Landmark)
      (sig : GestureController.GestureData) :
  GestureController.handSignal sqrt hand = Some sig ->
  exists wrist indexTip thumbTip middleTip,
    nth_error hand 0 = Some wrist
    /\ nth_error hand 8 = Some indexTip
    /\ nth_error hand 4 = Some thumbTip
    /\ nth_error hand 12 = Some middleTip
    /\ GestureController.rotation sig = (GestureController.lm_x wrist - 0.5) * 5
    /\ GestureController.dispersion sig
       = GestureController.dispersionOfDist
           (GestureController.wristMiddleDist sqrt wrist middleTip)
    /\ GestureController.isHandDetected sig = true
    /\ GestureController.cursor sig
       = Some (GestureController.lm_x indexTip * 2 - 1,
               - (GestureController.lm_y indexTip * 2 - 1))
    /\ GestureController.isPinching sig <> None.
Proof.
  unfold GestureController.handSignal.
  destruct (nth_error hand 0) as [wrist|]; [|discriminate].
  destruct (nth_error hand 8) as [indexTip|]; [|discriminate].
  destruct (nth_error hand 4) as [thumbTip|]; [|discriminate].
  destruct (nth_error hand 12) as [middleTip|]; [|discriminate].
  intro H. injection H as <-.
  exists wrist, indexTip, thumbTip, middleTip. simpl.
  repeat split; discriminate.
Qed.

(** The rotation speed vanishes exactly when the wrist is at the horizontal
    centre of the image, has the sign of the offset from the centre, and
    lies within [-2.5, 2.5] for a wrist inside the image. *)
Theorem rotation_centred_on_wrist (sqrt : Q -> Q)
        (hand : list GestureController.Landmark)
        (others : list (list GestureController.Landmark))
        (wrist : GestureController.Landmark)
        (sig : GestureController.GestureData) :
  nth_error hand 0 = Some wrist ->
  GestureController.interpret sqrt (Some (hand :: others)) = Some sig ->
  (GestureController.rotation sig == 0 <-> GestureController.lm_x wrist == 0.5)
  /\ (0 < GestureController.rotation sig <-> 0.5 < GestureController.lm_x wrist)
  /\ (0 <= GestureController.lm_x wrist <= 1 ->
      -2.5 <= GestureController.rotation sig <= 2.5).
Proof.
  intros H0 Hsig. simpl in Hsig.
  destruct (handSignal_fields sqrt hand sig Hsig)
    as (w & i & t & m & Hw & _ & _ & _ & Hrot & _).
  rewrite H0 in Hw. injection Hw as <-. rewrite Hrot.
  repeat split; intros; lra.
Qed.

Lemma rotation_centred_on_wrist_holds :
  exists sig,
    GestureController.interpret sqrt6 (Some [openHand]) = Some sig
    /\ 0 < GestureController.rotation sig.
Proof.
  eexists. split; [reflexivity|].
  apply (proj1 (proj2 (rotation_centred_on_wrist sqrt6 openHand []
           (GestureController.mkLandmark 0.7 0.5) _ eq_refl eq_refl))).
  qcompute.
Defined.

(** Every signal the controller emits is well formed: the dispersion is
    within [0, 1], cursor and pinch flag are present, and a signal without
    a hand is the hand-lost signal. *)
Theorem emitted_signal_well_formed (sqrt : Q -> Q)
        (landmarks : option (list (list GestureController.Landmark)))
        (sig : GestureController.GestureData) :
  GestureController.interpret sqrt landmarks = Some sig ->
  0 <= GestureController.dispersion sig <= 1
  /\ GestureController.cursor sig <> None
  /\ GestureController.isPinching sig <> None
  /\ (GestureController.isHandDetected sig = false ->
      sig = GestureController.handLost).
Proof.
  intro Hsig.
  assert (Hlost : sig = GestureController.handLost ->
    0 <= GestureController.dispersion sig <= 1
    /\ GestureController.cursor sig <> None
    /\ GestureController.isPinching sig <> None
    /\ (GestureController.isHandDetected sig = false ->
        sig = GestureController.handLost)).
  { intros ->. simpl. repeat split; try discriminate; lra. }
  destruct landmarks as [[|hand others]|]; simpl in Hsig;
    try (injection Hsig as <-; apply Hlost; reflexivity).
  destruct (handSignal_fields sqrt hand sig Hsig)
    as (w & i & t & m & _ & _ & _ & _ & _ & Hd & Hh & Hc & Hp).
  rewrite Hd, Hc, Hh.
  destruct (dispersionOfDist_monotone _ _
              (Qle_refl (GestureController.wristMiddleDist sqrt w m)))
    as (Hlo & _ & Hhi).
  repeat split; try assumption; discriminate.
Qed.

Lemma emitted_signal_well_formed_holds :
  exists sig,
    GestureController.interpret sqrt6 (Some [pinchingHand]) = Some sig
    /\ 0 <= GestureController.dispersion sig <= 1.
Proof.
  eexists. split; [reflexivity|].
  apply (emitted_signal_well_formed sqrt6 (Some [pinchingHand]) _ eq_refl).
Defined.

(** The cursor is the index fingertip in normalized device coordinates:
    a fingertip inside the image gives a cursor inside [-1, 1] x [-1, 1],
    the image centre gives the origin, and the vertical axis is flipped
    (a fingertip higher in the image gives a larger cursor y). *)
Theorem cursor_in_device_coordinates (sqrt : Q -> Q)
        (hand : list GestureController.Landmark)
        (others : list (list GestureController.Landmark))
        (indexTip : GestureController.Landmark)
        (sig : GestureController.GestureData) :
  nth_error hand 8 = Some indexTip ->
  GestureController.interpret sqrt (Some (hand :: others)) = Some sig ->
  exists cx cy,
    GestureController.cursor sig = Some (cx, cy)
    /\ (0 <= GestureController.lm_x indexTip <= 1 -> -1 <= cx <= 1)
    /\ (0 <= GestureController.lm_y indexTip <= 1 -> -1 <= cy <= 1)
    /\ (GestureController.lm_x indexTip == 0.5 -> cx == 0)
    /\ (GestureController.lm_y indexTip == 0.5 -> cy == 0)
    /\ (GestureController.lm_y indexTip < 0.5 <-> 0 < cy)
    /\ (GestureController.lm_x indexTip < 0.5 <-> cx < 0).
Proof.
  intros H8 Hsig. simpl in Hsig.
  destruct (handSignal_fields sqrt hand sig Hsig)
    as (w & i & t & m & _ & Hi & _ & _ & _ & _ & _ & Hc & _).
  rewrite H8 in Hi. injection Hi as <-.
  eexists. eexists. split; [exact Hc|].
  repeat split; intros; lra.
Qed.

Lemma cursor_in_device_coordinates_holds :
  exists sig cx cy,
    GestureController.interpret sqrt6 (Some [sampleHand]) = Some sig
    /\ GestureController.cursor sig = Some (cx, cy)
    /\ 0 < cy.
Proof.
  destruct (cursor_in_device_coordinates sqrt6 sampleHand []
              (GestureController.mkLandmark 0.6 0.2) _ eq_refl eq_refl)
    as (cx & cy & Hc & _ & _ & _ & _ & Hy & _).
  eexists. exists cx, cy. split; [reflexivity|]. split; [exact Hc|].
  apply Hy. qcompute.
Defined.

(** The two controllers use opposite dispersion conventions: for the same
    hand the legacy controller reports one minus the dispersion of the
    current one (and the same rotation). *)
Theorem legacy_dispersion_is_complement (sqrt : Q -> Q)
        (hand : list GestureController.Landmark)
        (sig : GestureController.GestureData) :
  GestureController.handSignal sqrt hand = Some sig ->
  exists legacySig,
    LegacyGestureController.handSignal sqrt hand = Some legacySig
    /\ LegacyGestureController.dispersion legacySig
       == 1 - GestureController.dispersion sig
    /\ LegacyGestureController.rotation legacySig
       = GestureController.rotation sig
    /\ LegacyGestureController.isHandDetected legacySig = true.
Proof.
  intro Hsig.
  destruct (handSignal_fields sqrt hand sig Hsig)
    as (w & i & t & m & H0 & _ & _ & H12 & Hr & Hd & _).
  unfold LegacyGestureController.handSignal. rewrite H0, H12.
  eexists. split; [reflexivity|]. simpl. rewrite Hr, Hd.
  repeat split.
Qed.

Lemma legacy_dispersion_is_complement_holds :
  exists sig legacySig,
    GestureController.handSignal sqrt6 openHand = Some sig
    /\ LegacyGestureController.handSignal sqrt6 openHand = Some legacySig
    /\ LegacyGestureController.dispersion legacySig
       == 1 - GestureController.dispersion sig.
Proof.
  destruct (legacy_dispersion_is_complement sqrt6 openHand _ eq_refl)
    as (legacySig & Hl & Hd & _).
  eexists. exists legacySig. split; [reflexivity|]. split; assumption.
Defined.

(** ** The inference tick *)

Lemma Qeq_bool_eq_true (a b : Q) : a == b -> Qeq_bool a b = true.
Proof. intro H. apply Qeq_bool_iff. exact H. Qed.

Lemma processesFrame_result (sqrt : Q -> Q) (lastVideoTime : Q)
      (env : GestureController.TickEnv) :
  processesFrame lastVideoTime env = true ->
  GestureController.predictWebcam sqrt lastVideoTime env
  = match GestureController.detect env with
    | GestureController.DetectThrows =>
        GestureController.mkTickResult
          (GestureController.currentTime (GestureController.video env)) None true
    | GestureController.DetectReturns landmarks =>
        GestureController.mkTickResult
          (GestureController.currentTime (GestureController.video env))
          (GestureController.interpret sqrt landmarks) true
    end.
Proof.
  unfold processesFrame. intro H.
  repeat (apply andb_prop in H; destruct H as [H ?]).
  unfold GestureController.predictWebcam.
  rewrite H, H3, H2. simpl.
  apply negb_true_iff in H1. rewrite H1, H0.
  destruct (GestureController.detect env); reflexivity.
Qed.

(** A video frame is interpreted once: after a tick that processed a frame,
    a tick that finds the video at the same [currentTime] emits nothing,
    leaves [lastVideoTime] alone and just reschedules itself. *)
Theorem same_video_time_is_skipped (sqrt : Q -> Q) (lastVideoTime : Q)
        (env env' : GestureController.TickEnv) :
  processesFrame lastVideoTime env = true ->
  GestureController.isRunning env' = true ->
  GestureController.currentTime (GestureController.video env')
  == GestureController.currentTime (GestureController.video env) ->
  let first := GestureController.predictWebcam sqrt lastVideoTime env in
  let second :=
    GestureController.predictWebcam sqrt
      (GestureController.newLastVideoTime first) env' in
  GestureController.emitted second = None
  /\ GestureController.newLastVideoTime second
     = GestureController.newLastVideoTime first
  /\ GestureController.rescheduled second = true.
Proof.
  intros Hproc Hrun Hsame first second.
  assert (Hlast : GestureController.newLastVideoTime first
                  = GestureController.currentTime (GestureController.video env)).
  { subst first. rewrite (processesFrame_result sqrt _ _ Hproc).
    destruct (GestureController.detect env); reflexivity. }
  subst second. rewrite Hlast.
  unfold GestureController.predictWebcam. rewrite Hrun. simpl.
  destruct (negb (GestureController.handLandmarker env')
            || negb (GestureController.canvasMounted env'));
    [repeat split|].
  destruct (GestureController.degenerate (GestureController.video env'));
    [repeat split|].
  rewrite (Qeq_bool_eq_true _ _ Hsame). simpl. repeat split.
Qed.

Lemma same_video_time_is_skipped_holds :
  let env := GestureController.mkTickEnv true true true (sampleVideo 0.04)
               (GestureController.DetectReturns (Some [openHand])) in
  let first := GestureController.predictWebcam sqrt6 (-1) env in
  GestureController.emitted first <> None
  /\ GestureController.emitted
       (GestureController.predictWebcam sqrt6
          (GestureController.newLastVideoTime first) env) = None.
Proof.
  intros env first. split; [discriminate|].
  apply (same_video_time_is_skipped sqrt6 (-1) env env eq_refl eq_refl).
  reflexivity.
Defined.

(** The loop of the current controller never dies while it is live and
    never survives teardown: whatever the tick finds, it reschedules itself
    exactly when the liveness flag is set; and it emits a signal only on a
    frame it processed. *)
Theorem tick_reschedules_iff_running (sqrt : Q -> Q) (lastVideoTime : Q)
        (env : GestureController.TickEnv) :
  let r := GestureController.predictWebcam sqrt lastVideoTime env in
  GestureController.rescheduled r = GestureController.isRunning env
  /\ (GestureController.emitted r <> None ->
      processesFrame lastVideoTime env = true)
  /\ (GestureController.isRunning env = false ->
      r = GestureController.mkTickResult lastVideoTime None false).
Proof.
  unfold GestureController.predictWebcam, processesFrame.
  destruct (GestureController.isRunning env); simpl;
    [|repeat split; intros; (reflexivity || discriminate || congruence)].
  destruct (GestureController.handLandmarker env); simpl;
    [|repeat split; intros; (reflexivity || discriminate || congruence)].
  destruct (GestureController.canvasMounted env); simpl;
    [|repeat split; intros; (reflexivity || discriminate || congruence)].
  destruct (GestureController.degenerate (GestureController.video env)); simpl;
    [repeat split; intros; (reflexivity || discriminate || congruence)|].
  destruct (negb (Qeq_bool _ _)); simpl; [|repeat split; intros; (reflexivity || discriminate || congruence)].
  destruct (GestureController.detect env); simpl; repeat split; intros; (reflexivity || discriminate || congruence).
Qed.

(** The legacy loop has no liveness flag and is more fragile: it
    reschedules itself exactly when the landmarker and the canvas are both
    there at the time of the tick; a tick that finds one of them missing
    ends the loop for good, without emitting anything. *)
Theorem legacy_tick_stops_without_refs (sqrt : Q -> Q) (lastVideoTime : Q)
        (env : LegacyGestureController.TickEnv) :
  let r := LegacyGestureController.predictWebcam sqrt lastVideoTime env in
  LegacyGestureController.rescheduled r
  = LegacyGestureController.handLandmarker env
    && LegacyGestureController.canvasMounted env
  /\ (LegacyGestureController.emitted r <> None ->
      legacyProcessesFrame lastVideoTime env = true).
Proof.
  unfold LegacyGestureController.predictWebcam, legacyProcessesFrame.
  destruct (LegacyGestureController.handLandmarker env); simpl;
    [|repeat split; intros; (reflexivity || discriminate || congruence)].
  destruct (LegacyGestureController.canvasMounted env); simpl;
    [|repeat split; intros; (reflexivity || discriminate || congruence)].
  destruct (GestureController.degenerate (LegacyGestureController.video env));
    simpl; [repeat split; intros; (reflexivity || discriminate || congruence)|].
  destruct (negb (Qeq_bool _ _)); simpl; [|repeat split; intros; (reflexivity || discriminate || congruence)].
  destruct (LegacyGestureController.detect env); simpl; repeat split; intros; (reflexivity || discriminate || congruence).
Qed.

Lemma handSignal_defined_iff (sqrt : Q -> Q)
      (hand : list GestureController.Landmark) :
  GestureController.handSignal sqrt hand <> None <-> (13 <= List.length hand)%nat.
Proof.
  unfold GestureController.handSignal. split.
  - intro H.
    destruct (nth_error hand 12) as [m|] eqn:H12.
    + assert (Hlt : (12 < List.length hand)%nat)
        by (apply nth_error_Some; rewrite H12; discriminate).
      lia.
    + exfalso. apply H.
      destruct (nth_error hand 0); [|reflexivity].
      destruct (nth_error hand 8); [|reflexivity].
      destruct (nth_error hand 4); reflexivity.
  - intro Hlen.
    assert (Hn : forall n, (n < 13)%nat -> nth_error hand n <> None)
      by (intros n Hlt; apply nth_error_Some; lia).
    destruct (nth_error hand 0) eqn:E0; [|exfalso; apply (Hn 0%nat); [lia|assumption]].
    destruct (nth_error hand 8) eqn:E8; [|exfalso; apply (Hn 8%nat); [lia|assumption]].
    destruct (nth_error hand 4) eqn:E4; [|exfalso; apply (Hn 4%nat); [lia|assumption]].
    destruct (nth_error hand 12) eqn:E12; [|exfalso; apply (Hn 12%nat); [lia|assumption]].
    discriminate.
Qed.

(** A hand with fewer than 13 keypoints makes the hand-present branch
    throw: the tick emits nothing and the published record is unchanged,
    but the video frame counts as consumed and the loop goes on.  With 13
    keypoints or more the branch always emits a hand-present signal. *)
Theorem malformed_hand_is_dropped (sqrt : Q -> Q) (lastVideoTime : Q)
        (env : GestureController.TickEnv)
        (hand : list GestureController.Landmark)
        (others : list (list GestureController.Landmark))
        (ref : App.GestureRef) :
  processesFrame lastVideoTime env = true ->
  GestureController.detect env
  = GestureController.DetectReturns (Some (hand :: others)) ->
  let r := GestureController.predictWebcam sqrt lastVideoTime env in
  GestureController.newLastVideoTime r
  = GestureController.currentTime (GestureController.video env)
  /\ GestureController.rescheduled r = true
  /\ ((List.length hand < 13)%nat ->
      GestureController.emitted r = None
      /\ onUpdate ref (GestureController.emitted r) = ref)
  /\ ((13 <= List.length hand)%nat ->
      exists sig, GestureController.emitted r = Some sig
                  /\ GestureController.isHandDetected sig = true).
Proof.
  intros Hproc Hdet r. subst r.
  rewrite (processesFrame_result sqrt _ _ Hproc), Hdet. simpl.
  split; [reflexivity|]. split; [reflexivity|].
  pose proof (handSignal_defined_iff sqrt hand) as Hiff.
  split; intro Hlen.
  - destruct (GestureController.handSignal sqrt hand) eqn:E.
    + exfalso. assert ((13 <= List.length hand)%nat)
        by (apply Hiff; discriminate). lia.
    + split; reflexivity.
  - destruct (GestureController.handSignal sqrt hand) as [sig|] eqn:E.
    + exists sig. split; [reflexivity|].
      destruct (handSignal_fields sqrt hand sig E)
        as (w & i & t & m & _ & _ & _ & _ & _ & _ & Hh & _). exact Hh.
    + exfalso. apply (proj2 Hiff Hlen). reflexivity.
Qed.

Lemma malformed_hand_is_dropped_holds :
  let env := GestureController.mkTickEnv true true true (sampleVideo 0.04)
               (GestureController.DetectReturns (Some [shortHand])) in
  let r := GestureController.predictWebcam sqrt6 (-1) env in
  GestureController.emitted r = None
  /\ onUpdate App.initialGestureRef (GestureController.emitted r)
     = App.initialGestureRef.
Proof.
  intros env r.
  apply (proj1 (proj2 (proj2 (malformed_hand_is_dropped sqrt6 (-1) env shortHand []
           App.initialGestureRef eq_refl eq_refl)))).
  vm_compute. lia.
Defined.

(** ** The shared record *)

(** Gesture updates are last-writer-wins and never touch the focus: after a
    signal emitted by the controller is merged, every gesture field of the
    record is the signal's, whatever was published before, and focusedId is
    what it was. *)
Theorem gesture_update_last_writer_wins (sqrt : Q -> Q)
        (landmarks : option (list (list GestureController.Landmark)))
        (earlier sig : GestureController.GestureData) (ref : App.GestureRef) :
  GestureController.interpret sqrt landmarks = Some sig ->
  App.handleGestureUpdate (App.handleGestureUpdate ref earlier) sig
  = App.handleGestureUpdate ref sig
  /\ App.handleGestureUpdate ref sig
     = {| App.rotation := GestureController.rotation sig;
          App.dispersion := GestureController.dispersion sig;
          App.isHandDetected := GestureController.isHandDetected sig;
          App.cursor := GestureController.cursor sig;
          App.isPinching := GestureController.isPinching sig;
          App.focusedId := App.focusedId ref |}.
Proof.
  intro Hsig.
  assert (Hfields : GestureController.cursor sig <> None
                    /\ GestureController.isPinching sig <> None).
  { destruct landmarks as [[|hand others]|]; simpl in Hsig;
      try (injection Hsig as <-; split; discriminate).
    destruct (handSignal_fields sqrt hand sig Hsig)
      as (w & i & t & m & _ & _ & _ & _ & _ & _ & _ & Hc & Hp).
    rewrite Hc. split; [discriminate|assumption]. }
  destruct Hfields as [Hc Hp].
  unfold App.handleGestureUpdate. simpl.
  destruct (GestureController.cursor sig); [|congruence].
  destruct (GestureController.isPinching sig); [|congruence].
  split; reflexivity.
Qed.

Lemma gesture_update_last_writer_wins_holds :
  exists sig,
    GestureController.interpret sqrt6 (Some [openHand]) = Some sig
    /\ App.handleGestureUpdate
         (App.handleGestureUpdate
            (App.setFocusedId App.initialGestureRef (Some "photo-1"%string))
            GestureController.handLost) sig
       = App.handleGestureUpdate
           (App.setFocusedId App.initialGestureRef (Some "photo-1"%string)) sig.
Proof.
  eexists. split; [reflexivity|].
  apply (proj1 (gesture_update_last_writer_wins sqrt6 (Some [openHand])
                  GestureController.handLost _ _ eq_refl)).
Defined.

Section SceneProperties.
Context {three : ThreeOps}.

Lemma randomPhoto_member (photos : list App.PhotoData) (random : Q)
      (photo : App.PhotoData) :
  App.randomPhoto photos random = Some photo -> In photo photos.
Proof.
  unfold App.randomPhoto.
  destruct (_ <? 0)%Z; [discriminate|].
  apply nth_error_In.
Qed.

Lemma sceneSelect_cases (mode : App.InteractionMode)
      (photos : list App.PhotoData) (random : Q) (ref ref' : App.GestureRef) :
  App.sceneSelect mode photos random ref = Some ref' ->
  ref' = App.setFocusedId ref (App.focusedId ref')
  /\ ((App.selects mode ref = true
       /\ exists photo, In photo photos
                        /\ App.focusedId ref' = Some (App.Photo.id photo))
      \/ (App.selects mode ref = false /\ App.releases mode ref = true
          /\ App.focusedId ref' = None)
      \/ (App.selects mode ref = false /\ App.releases mode ref = false
          /\ ref' = ref)).
Proof.
  unfold App.sceneSelect.
  destruct (App.selects mode ref).
  - destruct (App.randomPhoto photos random) as [photo|] eqn:Hpick;
      [|discriminate].
    intro H. injection H as <-. split; [reflexivity|].
    left. split; [reflexivity|]. exists photo.
    split; [eapply randomPhoto_member; eassumption|reflexivity].
  - destruct (App.releases mode ref).
    + intro H. injection H as <-. split; [reflexivity|].
      right. left. repeat split.
    + intro H. injection H as <-. split; [destruct ref; reflexivity|].
      right. right. repeat split.
Qed.

(** A render frame throws only in the selection branch: with an empty
    photo list a frame on which the pinch would select throws, whatever
    [Math.random] returns; with a non-empty list and [Math.random] in
    [0, 1), or whenever nothing is to be selected, the frame completes. *)
Theorem frame_throws_only_without_photos (env : App.RenderEnv) (w : App.World) :
  (App.photosOf w = [] ->
   App.selects (App.interactionMode w) (App.gestureRef w) = true ->
   App.renderFrame env w = None)
  /\ (App.photosOf w <> [] -> 0 <= App.random env < 1 ->
      App.renderFrame env w <> None)
  /\ (App.selects (App.interactionMode w) (App.gestureRef w) = false ->
      App.renderFrame env w <> None).
Proof.
  unfold App.renderFrame, App.sceneSelect. repeat split.
  - intros Hnil Hsel. rewrite Hsel, Hnil. unfold App.randomPhoto.
    destruct (_ <? 0)%Z; [reflexivity|].
    destruct (Z.to_nat _); reflexivity.
  - intros Hne [H0 H1].
    destruct (App.selects _ _).
    + destruct (randomPhoto_in_range (App.photosOf w) (App.random env)
                  Hne H0 H1) as (photo & -> & _). discriminate.
    + destruct (App.releases _ _); discriminate.
  - intros ->. destruct (App.releases _ _); discriminate.
Qed.

(** Render frames never move the focus from one photo to another: after a
    frame, focusedId is what it was, or null, or -- only if nothing was
    focused before -- the id of one of the photos. *)
Theorem frame_never_retargets_focus (env : App.RenderEnv) (w w' : App.World) :
  App.renderFrame env w = Some w' ->
  App.focusedId (App.gestureRef w') = App.focusedId (App.gestureRef w)
  \/ App.focusedId (App.gestureRef w') = None
  \/ (App.truthyId (App.focusedId (App.gestureRef w)) = false
      /\ exists photo, In photo (App.photosOf w)
                       /\ App.focusedId (App.gestureRef w')
                          = Some (App.Photo.id photo)).
Proof.
  unfold App.renderFrame. intro H.
  destruct (App.sceneSelect _ _ _ _) as [ref|] eqn:Hsel; [|discriminate].
  injection H as <-. simpl.
  destruct (sceneSelect_cases _ _ _ _ _ Hsel)
    as (_ & [(Hs & photo & Hin & Hid) | [(_ & _ & Hnone) | (_ & _ & ->)]]).
  - right. right. split; [|exists photo; split; assumption].
    unfold App.selects in Hs.
    destruct (App.interactionMode w); [discriminate|].
    destruct (App.truthyId (App.focusedId (App.gestureRef w)));
      [|reflexivity].
    rewrite !andb_false_r in Hs. discriminate.
  - right. left. assumption.
  - left. reflexivity.
Qed.

(** Ending the pinch or closing the hand releases the focus: a render
    frame in gesture mode with a hand detected and either no pinch or a
    dispersion of at most 0.3 completes and leaves focusedId null, whatever
    it was. *)
Theorem open_or_closed_hand_releases_focus (env : App.RenderEnv) (w : App.World) :
  App.interactionMode w = App.GESTURE ->
  App.isHandDetected (App.gestureRef w) = true ->
  App.truthyFlag (App.isPinching (App.gestureRef w)) = false
  \/ App.dispersion (App.gestureRef w) <= 0.3 ->
  exists w', App.renderFrame env w = Some w'
             /\ App.focusedId (App.gestureRef w') = None.
Proof.
  intros Hmode Hhand Hrel.
  unfold App.renderFrame, App.sceneSelect, App.selects, App.releases.
  rewrite Hmode, Hhand. simpl.
  destruct Hrel as [Hp | Hd].
  - rewrite Hp. simpl. eexists. split; reflexivity.
  - assert (Hlt : Qltb 0.3 (App.dispersion (App.gestureRef w)) = false)
      by (apply Qltb_false; assumption).
    assert (Hle : Qle_bool (App.dispersion (App.gestureRef w)) 0.3 = true)
      by (apply Qle_bool_iff; assumption).
    rewrite Hlt, Hle, andb_false_r, orb_true_r. simpl.
    eexists. split; reflexivity.
Qed.

(** In mouse mode a render frame completes and leaves the shared record
    exactly as it was: gesture signals that keep arriving cannot select or
    release a photo, so a focus set by a click holds until the next click
    or pointer-missed event. *)
Theorem mouse_mode_frames_keep_record (env : App.RenderEnv) (w : App.World) :
  App.interactionMode w = App.MOUSE ->
  exists w', App.renderFrame env w = Some w'
             /\ App.gestureRef w' = App.gestureRef w
             /\ App.interactionMode w' = App.MOUSE.
Proof.
  intro Hmode. unfold App.renderFrame, App.sceneSelect, App.selects, App.releases.
  rewrite Hmode. eexists. repeat split.
Qed.

(** Clicking in mouse mode: a click on a photo that is not the focused one
    focuses it (directly, also when another photo was focused), a click on
    the focused photo releases it, so two clicks on an unfocused photo end
    with no focus; in gesture mode a click changes nothing. *)
Theorem click_toggles_focus (index : nat) (photo : App.PhotoData) (w : App.World) :
  nth_error (App.photosOf w) index = Some photo ->
  (App.interactionMode w = App.MOUSE ->
   App.focusedId (App.gestureRef w) <> Some (App.Photo.id photo) ->
   App.focusedId (App.gestureRef (App.click index w)) = Some (App.Photo.id photo)
   /\ App.focusedId (App.gestureRef (App.click index (App.click index w))) = None)
  /\ (App.interactionMode w = App.MOUSE ->
      App.focusedId (App.gestureRef w) = Some (App.Photo.id photo) ->
      App.focusedId (App.gestureRef (App.click index w)) = None)
  /\ (App.interactionMode w = App.GESTURE -> App.click index w = w).
Proof.
  intro Hnth.
  assert (Hother : forall f, f <> Some (App.Photo.id photo) ->
                             App.isId f (App.Photo.id photo) = false).
  { intros [s|] Hf; [|reflexivity]. simpl. apply String.eqb_neq. congruence. }
  assert (Hfirst : App.interactionMode w = App.MOUSE ->
            App.focusedId (App.gestureRef w) <> Some (App.Photo.id photo) ->
            App.click index w
            = {| App.interactionMode := App.interactionMode w;
                 App.gestureRef :=
                   App.setFocusedId (App.gestureRef w)
                                    (Some (App.Photo.id photo));
                 App.sceneYaw := App.sceneYaw w;
                 App.uDispersion := App.uDispersion w;
                 App.photoGroups := App.photoGroups w |}).
  { intros Hmode Hf. unfold App.click. rewrite Hmode, Hnth. simpl.
    rewrite (Hother _ Hf). reflexivity. }
  split; [|split].
  - intros Hmode Hf. rewrite (Hfirst Hmode Hf). split; [reflexivity|].
    unfold App.click, App.photosOf. simpl. fold (App.photosOf w).
    rewrite Hmode, Hnth. simpl. rewrite String.eqb_refl. reflexivity.
  - intros Hmode Hf. unfold App.click. rewrite Hmode, Hnth. simpl.
    rewrite Hf. simpl. rewrite String.eqb_refl. reflexivity.
  - intro Hmode. unfold App.click. rewrite Hmode. reflexivity.
Qed.

Lemma step_focus_member (photos : list App.PhotoData) (w w' : App.World)
      (e : App.Event) :
  App.photosOf w = photos ->
  (forall a, App.focusedId (App.gestureRef w) = Some a ->
             exists photo, In photo photos /\ App.Photo.id photo = a) ->
  App.step w e = Some w' ->
  forall a, App.focusedId (App.gestureRef w') = Some a ->
            exists photo, In photo photos /\ App.Photo.id photo = a.
Proof.
  intros Hphotos Hinv Hstep a Ha.
  destruct e; simpl in Hstep.
  - unfold App.renderFrame in Hstep.
    destruct (App.sceneSelect _ _ _ _) as [ref|] eqn:Hsel; [|discriminate].
    injection Hstep as <-. simpl in Ha.
    destruct (sceneSelect_cases _ _ _ _ _ Hsel)
      as (_ & [(_ & photo & Hin & Hid) | [(_ & _ & Hnone) | (_ & _ & ->)]]).
    + exists photo. rewrite <- Hphotos. split; [assumption|congruence].
    + congruence.
    + apply Hinv. assumption.
  - injection Hstep as <-. apply Hinv. exact Ha.
  - injection Hstep as <-. unfold App.click in Ha.
    destruct (App.interactionMode w); [|apply Hinv; exact Ha].
    destruct (nth_error (App.photosOf w) index) as [photo|] eqn:Hnth;
      [|apply Hinv; exact Ha].
    simpl in Ha. destruct (App.isId _ _); [discriminate|].
    injection Ha as <-. exists photo. split; [|reflexivity].
    rewrite <- Hphotos. eapply nth_error_In. eassumption.
  - injection Hstep as <-. discriminate.
  - injection Hstep as <-. apply Hinv. exact Ha.
Qed.

(** Whatever happens, focusedId is null or the id of one of the photos:
    no run of frames, gesture updates, clicks, pointer-missed events and
    mode switches from the initial state leaves it dangling. *)
Theorem focus_names_a_photo (photos : list App.PhotoData)
        (es : list App.Event) (w : App.World) (a : string) :
  App.run (App.initialWorld photos) es = Some w ->
  App.focusedId (App.gestureRef w) = Some a ->
  exists photo, In photo photos /\ App.Photo.id photo = a.
Proof.
  assert (Hgen : forall es w0 w,
    App.photosOf w0 = photos ->
    (forall a, App.focusedId (App.gestureRef w0) = Some a ->
               exists photo, In photo photos /\ App.Photo.id photo = a) ->
    App.run w0 es = Some w ->
    forall a, App.focusedId (App.gestureRef w) = Some a ->
              exists photo, In photo photos /\ App.Photo.id photo = a).
  { clear. induction es as [|e es IH]; intros w0 w Hphotos Hinv Hrun.
    - simpl in Hrun. injection Hrun as <-. exact Hinv.
    - cbn [App.run] in Hrun.
      destruct (App.step w0 e) as [w1|] eqn:Hstep; [|discriminate].
      apply (IH w1 w).
      + rewrite (photosOf_step w0 w1 e Hstep). exact Hphotos.
      + apply (step_focus_member photos w0 w1 e Hphotos Hinv Hstep).
      + exact Hrun. }
  intros Hrun Ha.
  apply (Hgen es (App.initialWorld photos) w); try assumption.
  - unfold App.photosOf, App.initialWorld. simpl. rewrite map_map. simpl.
    apply map_id.
  - simpl. discriminate.
Qed.

End SceneProperties.

Lemma frame_never_retargets_focus_holds :
  let w := worldAfter [App.SetInteractionMode App.GESTURE; updateFor pinchingHand] in
  let w' := worldAfter [App.SetInteractionMode App.GESTURE; updateFor pinchingHand;
                        sampleFrame 0.016 0] in
  App.focusedId (App.gestureRef w') = App.focusedId (App.gestureRef w)
  \/ App.focusedId (App.gestureRef w') = None
  \/ (App.truthyId (App.focusedId (App.gestureRef w)) = false
      /\ exists photo, In photo (App.photosOf w)
                       /\ App.focusedId (App.gestureRef w')
                          = Some (App.Photo.id photo)).
Proof.
  intros w w'.
  apply (@frame_never_retargets_focus SampleThree.ops
           (App.mkRenderEnv 0.016 (sampleCamera 0) sampleParent 0.5) w w').
  reflexivity.
Defined.

Lemma open_or_closed_hand_releases_focus_holds :
  exists w',
    App.step (worldAfter [App.SetInteractionMode App.GESTURE; updateFor pinchingHand;
                          sampleFrame 0.016 0; updateFor openHand])
             (sampleFrame 0.016 0) = Some w'
    /\ App.focusedId (App.gestureRef w') = None.
Proof.
  apply (@open_or_closed_hand_releases_focus SampleThree.ops
           (App.mkRenderEnv 0.016 (sampleCamera 0) sampleParent 0.5)
           (worldAfter [App.SetInteractionMode App.GESTURE; updateFor pinchingHand;
                        sampleFrame 0.016 0; updateFor openHand])
           eq_refl eq_refl (or_introl eq_refl)).
Defined.

Lemma mouse_mode_frames_keep_record_holds :
  exists w',
    App.step (worldAfter [updateFor pinchingHand; App.Click 1])
             (sampleFrame 0.016 0) = Some w'
    /\ App.focusedId (App.gestureRef w') = Some "photo-2"%string.
Proof.
  destruct (@mouse_mode_frames_keep_record SampleThree.ops
              (App.mkRenderEnv 0.016 (sampleCamera 0) sampleParent 0.5)
              (worldAfter [updateFor pinchingHand; App.Click 1]) eq_refl)
    as (w' & Hstep & Href & _).
  exists w'. split; [exact Hstep|]. rewrite Href. reflexivity.
Defined.

Lemma click_toggles_focus_holds :
  App.focusedId (App.gestureRef (App.click 1 (worldAfter [App.Click 0])))
  = Some "photo-2"%string.
Proof.
  apply (proj1 (@click_toggles_focus SampleThree.ops 1 photoB
                  (worldAfter [App.Click 0]) eq_refl)
               eq_refl ltac:(discriminate)).
Defined.

Lemma focus_names_a_photo_holds :
  exists photo, In photo [photoA; photoB]
                /\ App.Photo.id photo = "photo-2"%string.
Proof.
  apply (@focus_names_a_photo SampleThree.ops [photoA; photoB]
           [App.SetInteractionMode App.GESTURE; updateFor pinchingHand;
            sampleFrame 0.016 0]
           (worldAfter [App.SetInteractionMode App.GESTURE; updateFor pinchingHand;
                        sampleFrame 0.016 0])
           "photo-2"%string eq_refl eq_refl).
Defined.

(** ** Rotation in mouse mode and the dispersion uniform *)

Lemma geometric_pos (q : Q) (n : nat) : 0 < q -> 0 < geometric q n.
Proof.
  intro Hq. induction n as [|n IH]; simpl; [reflexivity|].
  apply Qmult_lt_0_compat; assumption.
Qed.

Lemma geometric_antitone (q : Q) (m n : nat) :
  0 < q -> q <= 1 -> (m <= n)%nat -> geometric q n <= geometric q m.
Proof.
  intros H0 H1 Hle. induction Hle as [|n Hle IH]; [apply Qle_refl|].
  simpl. pose proof (geometric_pos q n H0). nra.
Qed.

Section UniformProperties.
Context {three : ThreeOps}.

Lemma step_uDispersion_other (w w' : App.World) (e : App.Event) :
  isRenderFrame e = false -> App.step w e = Some w' ->
  App.uDispersion w' = App.uDispersion w.
Proof.
  destruct e; simpl; try discriminate; intros _ H; injection H as <-;
    try reflexivity.
  unfold App.click.
  destruct (App.interactionMode w); [|reflexivity].
  destruct (nth_error (App.photosOf w) index); reflexivity.
Qed.

Lemma frameCount_cons (e : App.Event) (es : list App.Event) :
  frameCount (e :: es)
  = if isRenderFrame e then S (frameCount es) else frameCount es.
Proof. unfold frameCount. simpl. destruct (isRenderFrame e); reflexivity. Qed.

(** While its target stays put, the dispersion uniform closes a tenth of
    the remaining gap on every render frame: after n frames the gap is
    0.9^n times the initial one.  It therefore never reaches a target it
    did not start on. *)
Theorem dispersion_uniform_decays_geometrically (target : Q)
        (w w' : App.World) (es : list App.Event) :
  beforeFrames (fun s =>
      App.targetDispersion (App.interactionMode s) (App.gestureRef s)
      == target) w es ->
  App.run w es = Some w' ->
  App.uDispersion w' - target
  == geometric 0.9 (frameCount es) * (App.uDispersion w - target)
  /\ (~ App.uDispersion w == target -> ~ App.uDispersion w' == target).
Proof.
  intros Hheld Hrun.
  assert (Hgap : App.uDispersion w' - target
                 == geometric 0.9 (frameCount es) * (App.uDispersion w - target)).
  { revert w Hheld Hrun.
    induction es as [|e es IH]; intros w Hheld Hrun.
    - simpl in Hrun. injection Hrun as <-. simpl. ring.
    - cbn [App.run] in Hrun.
      destruct (App.step w e) as [w1|] eqn:Hstep; [|discriminate].
      destruct (beforeFrames_cons _ _ _ _ _ Hheld Hstep) as [Hnow Hlater].
      rewrite (IH w1 Hlater Hrun), frameCount_cons.
      destruct (isRenderFrame e) eqn:Hframe.
      + destruct e; try discriminate. simpl in Hstep.
        unfold App.renderFrame in Hstep.
        destruct (App.sceneSelect _ _ _ _); [|discriminate].
        injection Hstep as <-. simpl.
        pose proof (Hnow eq_refl) as Ht. simpl in Ht.
        unfold App.particlesFrame, MathUtils.lerp. rewrite Ht. ring.
      + rewrite (step_uDispersion_other w w1 e Hframe Hstep). reflexivity. }
  split; [exact Hgap|].
  intros Hne Heq. apply Hne.
  assert (Hzero : geometric 0.9 (frameCount es) * (App.uDispersion w - target) == 0)
    by (rewrite <- Hgap; lra).
  apply Qmult_integral in Hzero. destruct Hzero as [Hg | Hu]; [|lra].
  pose proof (geometric_pos 0.9 (frameCount es) eq_refl). lra.
Qed.


End UniformProperties.

Lemma dispersion_uniform_decays_geometrically_holds :
  let w := worldAfter [App.SetInteractionMode App.GESTURE; updateFor openHand] in
  let es := [sampleFrame 0.016 0; sampleFrame 0.016 0] in
  App.uDispersion (worldAfter [App.SetInteractionMode App.GESTURE; updateFor openHand;
                               sampleFrame 0.016 0; sampleFrame 0.016 0]) - 0.6
  == geometric 0.9 2 * (App.uDispersion w - 0.6).
Proof.
  intros w es.
  apply (@dispersion_uniform_decays_geometrically SampleThree.ops 0.6 w
           (worldAfter [App.SetInteractionMode App.GESTURE; updateFor openHand;
                        sampleFrame 0.016 0; sampleFrame 0.016 0]) es).
  - vm_compute. repeat split; reflexivity.
  - reflexivity.
Defined.


(** ** Coming to rest, the cache, and completion of the transition *)

Section TransitionProperties.
Context {three : ThreeOps}.

Lemma photoFrame_rest_branch (photo : App.PhotoData) (mode : App.InteractionMode)
      (ref : App.GestureRef) (delta : Q) (camera : App.Camera)
      (parent : option App.Parent) (st : App.PhotoState) :
  App.group st <> None ->
  App.updateProgress (App.progress st) (App.targetProgress ref photo) delta
  < 0.001 ->
  atRest photo (App.activeDispersion mode ref)
         (App.photoFrame photo mode ref delta camera parent st).
Proof.
  intros Hg Hp. unfold App.photoFrame.
  destruct (App.group st); [|congruence].
  apply Qltb_true in Hp. rewrite Hp. split; reflexivity.
Qed.

(** A resting photo that is not focused stays at rest on every frame, for
    any frame delta whatsoever: its progress stays 0, no locked pose is
    cached, and its group is written the tree pose for the current
    dispersion -- the photo's own position in mouse mode. *)
Theorem resting_photo_stays_at_rest (photo : App.PhotoData)
        (mode : App.InteractionMode) (ref : App.GestureRef) (delta : Q)
        (camera : App.Camera) (parent : option App.Parent)
        (st : App.PhotoState) :
  App.group st <> None ->
  App.progress st == 0 ->
  App.isId (App.focusedId ref) (App.Photo.id photo) = false ->
  let st' := App.photoFrame photo mode ref delta camera parent st in
  App.progress st' = 0
  /\ atRest photo (App.activeDispersion mode ref) st'
  /\ (mode = App.MOUSE ->
      Vec3.eqv (App.treePos photo (App.activeDispersion mode ref))
               (App.Photo.position photo)
      /\ Vec3.eqv (Vec3.setScalar (1 + App.activeDispersion mode ref * 0.5))
                  (mkVector3 1 1 1)).
Proof.
  intros Hg Hp Hid st'.
  assert (Htarget : App.targetProgress ref photo = 0)
    by (unfold App.targetProgress; rewrite Hid; reflexivity).
  assert (Hup : App.updateProgress (App.progress st) 0 delta = 0).
  { destruct (updateProgress_cases (App.progress st) 0 delta)
      as [[H _] | [_ Hfar]]; [assumption|exfalso].
    assert (Hz : MathUtils.lerp (App.progress st) 0 (10 * delta) - 0 == 0)
      by (unfold MathUtils.lerp; rewrite Hp; ring).
    rewrite Hz in Hfar. vm_compute in Hfar. apply Hfar. reflexivity. }
  split; [|split].
  - subst st'. rewrite photoFrame_progress by assumption.
    rewrite Htarget. exact Hup.
  - apply photoFrame_rest_branch; [assumption|].
    rewrite Htarget, Hup. reflexivity.
  - intros ->. simpl. unfold Vec3.eqv, App.treePos, Vec3.setScalar. simpl.
    repeat split; ring.
Qed.

Lemma photoFrame_cache_kept (photo : App.PhotoData) (mode : App.InteractionMode)
      (ref : App.GestureRef) (delta : Q) (camera : App.Camera)
      (parent : option App.Parent) (st : App.PhotoState) (l : App.Locked) :
  App.lockedState st = Some l ->
  0.001 <= App.progress (App.photoFrame photo mode ref delta camera parent st) ->
  App.lockedState (App.photoFrame photo mode ref delta camera parent st)
  = Some l.
Proof.
  intro Hl. unfold App.photoFrame.
  destruct (App.group st); [|intros _; exact Hl].
  set (p := App.updateProgress _ _ _).
  qcases p 0.001.
  - simpl. intro. lra.
  - intros _. unfold App.lockedTarget. rewrite Hl.
    destruct (Qle_bool 0.99 p); [reflexivity|].
    destruct parent; reflexivity.
Qed.

(** The cached locked pose is written once: as long as the photo's
    progress stays at or above 0.001 after every frame, no frame
    overwrites or clears the cache, however the camera moves and whether
    the photo is focused, released or focused again in between. *)
Theorem locked_cache_is_write_once (i : nat) (photo : App.PhotoData)
        (l : App.Locked) (w w' : App.World) (es : list App.Event)
        (st : App.PhotoState) :
  nth_error (App.photoGroups w) i = Some (photo, st) ->
  App.lockedState st = Some l ->
  afterFrames (fun s => forall st1,
      nth_error (App.photoGroups s) i = Some (photo, st1) ->
      0.001 <= App.progress st1) w es ->
  App.run w es = Some w' ->
  exists st', nth_error (App.photoGroups w') i = Some (photo, st')
              /\ App.lockedState st' = Some l.
Proof.
  revert w st.
  induction es as [|e es IH]; intros w st Hnth Hl Hheld Hrun.
  - simpl in Hrun. injection Hrun as <-. exists st. split; assumption.
  - cbn [App.run] in Hrun. cbn [afterFrames] in Hheld.
    destruct (App.step w e) as [w1|] eqn:Hstep; [|discriminate].
    destruct Hheld as [Hnow Hlater].
    destruct (isRenderFrame e) eqn:Hframe.
    + destruct e; try discriminate. simpl in Hstep.
      pose proof (renderFrame_nth env w w1 i photo st Hstep Hnth) as Hnth1.
      apply (IH w1 _ Hnth1); try assumption.
      apply photoFrame_cache_kept; [assumption|].
      apply (Hnow eq_refl). exact Hnth1.
    + rewrite <- (step_photoGroups_other w w1 e Hframe Hstep) in Hnth.
      apply (IH w1 st Hnth Hl Hlater Hrun).
Qed.

Lemma brisk_is_smooth (es : list App.Event) :
  Forall briskFrame es -> Forall smoothFrame es.
Proof.
  intro H. induction H as [|e es He _ IH]; constructor; [|assumption].
  destruct e; simpl in *; try exact I. lra.
Qed.

(** Progress of a focused photo over a run of brisk frames: the gap to 1
    shrinks by a factor 0.9 per frame at least, and after a frame the
    progress is 1 or at least 0.01 away from it. *)
Lemma focus_gap_along_run (i : nat) (photo : App.PhotoData)
      (es : list App.Event) :
  forall w w' st,
    nth_error (App.photoGroups w) i = Some (photo, st) ->
    App.group st <> None ->
    0 <= App.progress st <= 1 ->
    Forall briskFrame es ->
    afterFrames (fun s => App.isId (App.focusedId (App.gestureRef s))
                                   (App.Photo.id photo) = true) w es ->
    App.run w es = Some w' ->
    exists st',
      nth_error (App.photoGroups w') i = Some (photo, st')
      /\ 0 <= App.progress st' <= 1
      /\ 1 - App.progress st'
         <= geometric 0.9 (frameCount es) * (1 - App.progress st)
      /\ ((0 < frameCount es)%nat
          \/ (App.progress st = 1 \/ 0.01 <= 1 - App.progress st) ->
          App.progress st' = 1 \/ 0.01 <= 1 - App.progress st').
Proof.
  induction es as [|e es IH]; intros w w' st Hnth Hg Hp Hbrisk Hheld Hrun.
  - simpl in Hrun. injection Hrun as <-. exists st.
    split; [assumption|]. split; [assumption|]. split; [simpl; lra|].
    intros [Hc | Hc]; [inversion Hc | exact Hc].
  - inversion Hbrisk as [|? ? He Hes]; subst.
    cbn [App.run] in Hrun. cbn [afterFrames] in Hheld.
    destruct (App.step w e) as [w1|] eqn:Hstep; [|discriminate].
    destruct Hheld as [Hnow Hlater].
    rewrite frameCount_cons.
    destruct (isRenderFrame e) eqn:Hframe.
    + destruct e; try discriminate. simpl in Hstep, He.
      pose proof (renderFrame_nth env w w1 i photo st Hstep Hnth) as Hnth1.
      set (st1 := App.photoFrame photo (App.interactionMode w)
                    (App.gestureRef w1) (App.delta env) (App.camera env)
                    (Some (App.photosParent env)) st) in *.
      assert (Hp1 : App.progress st1
                    = App.updateProgress (App.progress st) 1 (App.delta env)).
      { subst st1. rewrite photoFrame_progress by assumption.
        unfold App.targetProgress. rewrite (Hnow eq_refl). reflexivity. }
      assert (Hsettled : App.progress st1 = 1 \/ 0.01 <= 1 - App.progress st1).
      { rewrite Hp1.
        destruct (updateProgress_cases (App.progress st) 1 (App.delta env))
          as [[-> _] | [-> Hfar]]; [left; reflexivity|right].
        unfold MathUtils.lerp in *.
        rewrite Qabs_neg in Hfar by nra. nra. }
      assert (Hgap1 : 0 <= App.progress st1 <= 1
                      /\ 1 - App.progress st1 <= 0.9 * (1 - App.progress st)).
      { rewrite Hp1.
        destruct (updateProgress_cases (App.progress st) 1 (App.delta env))
          as [[-> _] | [-> _]]; [split; lra|].
        unfold MathUtils.lerp. split; [split|]; nra. }
      destruct Hgap1 as [Hb1 Hgap1].
      destruct (IH w1 w' st1 Hnth1
                   (photoFrame_mounted _ _ _ _ _ _ _ Hg) Hb1 Hes Hlater Hrun)
        as (st' & Hnth' & Hb' & Hgap' & Himp).
      exists st'. split; [assumption|]. split; [assumption|].
      split.
      * simpl. pose proof (geometric_pos 0.9 (frameCount es) eq_refl). nra.
      * intros _. apply Himp. right. exact Hsettled.
    + rewrite <- (step_photoGroups_other w w1 e Hframe Hstep) in Hnth.
      apply (IH w1 w' st Hnth Hg Hp Hes Hlater Hrun).
Qed.

(** Focusing completes: from any state reached with blend factors in
    (0, 1], once a photo has been the focused one over 44 render frames
    lasting between 0.01 s and 0.1 s each, its progress is exactly 1 and a
    locked pose is cached. *)
Theorem focus_completes_within_44_frames (photos : list App.PhotoData)
        (es0 es : list App.Event) (w0 w : App.World) (i : nat)
        (photo : App.PhotoData) (st0 : App.PhotoState) :
  Forall smoothFrame es0 ->
  App.run (App.initialWorld photos) es0 = Some w0 ->
  nth_error (App.photoGroups w0) i = Some (photo, st0) ->
  Forall briskFrame es ->
  afterFrames (fun s => App.isId (App.focusedId (App.gestureRef s))
                                 (App.Photo.id photo) = true) w0 es ->
  (44 <= frameCount es)%nat ->
  App.run w0 es = Some w ->
  exists st, nth_error (App.photoGroups w) i = Some (photo, st)
             /\ App.progress st = 1
             /\ App.lockedState st <> None.
Proof.
  intros Hsmooth0 Hrun0 Hnth0 Hbrisk Hheld Hcount Hrun.
  pose proof (reachable_inv photos es0 w0 Hsmooth0 Hrun0) as Hinv0.
  destruct (worldInv_nth w0 i photo st0 Hinv0 Hnth0) as (Hg & Hp & _).
  destruct (focus_gap_along_run i photo es w0 w st0 Hnth0 Hg Hp Hbrisk
              Hheld Hrun) as (st & Hnth & Hb & Hgap & Himp).
  assert (Hone : App.progress st = 1).
  { destruct Himp as [H1 | Hfar]; [left; lia|exact H1|exfalso].
    pose proof (geometric_antitone 0.9 44 (frameCount es) eq_refl
                  ltac:(discriminate) Hcount) as Hg44.
    assert (H44 : geometric 0.9 44 < 0.01) by reflexivity.
    pose proof (geometric_pos 0.9 (frameCount es) eq_refl). nra. }
  exists st. split; [assumption|]. split; [assumption|].
  pose proof (run_inv es w0 w (brisk_is_smooth es Hbrisk) Hrun Hinv0) as Hinv.
  destruct (worldInv_nth w i photo st Hinv Hnth) as (_ & _ & Hcache).
  apply Hcache. rewrite Hone. discriminate.
Qed.

Lemma restInv_frame (photo : App.PhotoData) (mode : App.InteractionMode)
      (ref : App.GestureRef) (delta : Q) (camera : App.Camera)
      (parent : option App.Parent) (st : App.PhotoState) :
  restInv st -> restInv (App.photoFrame photo mode ref delta camera parent st).
Proof.
  unfold restInv, App.photoFrame. intro Hinv.
  destruct (App.group st); [|exact Hinv].
  set (p := App.updateProgress _ _ _).
  qcases p 0.001; [reflexivity|].
  destruct (App.lockedTarget _ _ _ _ _ _) as [[? ?] ?]. simpl. intro. lra.
Qed.

Lemma release_gap_along_run (i : nat) (photo : App.PhotoData)
      (es : list App.Event) :
  forall w w' st,
    nth_error (App.photoGroups w) i = Some (photo, st) ->
    App.group st <> None ->
    0 <= App.progress st <= 1 ->
    restInv st ->
    Forall briskFrame es ->
    afterFrames (fun s => App.isId (App.focusedId (App.gestureRef s))
                                   (App.Photo.id photo) = false) w es ->
    App.run w es = Some w' ->
    exists st',
      nth_error (App.photoGroups w') i = Some (photo, st')
      /\ 0 <= App.progress st' <= 1
      /\ restInv st'
      /\ App.progress st' <= geometric 0.9 (frameCount es) * App.progress st
      /\ ((0 < frameCount es)%nat
          \/ (App.progress st = 0 \/ 0.01 <= App.progress st) ->
          App.progress st' = 0 \/ 0.01 <= App.progress st').
Proof.
  induction es as [|e es IH]; intros w w' st Hnth Hg Hp Hrest Hbrisk Hheld Hrun.
  - simpl in Hrun. injection Hrun as <-. exists st.
    split; [assumption|]. split; [assumption|]. split; [assumption|].
    split; [simpl; lra|].
    intros [Hc | Hc]; [inversion Hc | exact Hc].
  - inversion Hbrisk as [|? ? He Hes]; subst.
    cbn [App.run] in Hrun. cbn [afterFrames] in Hheld.
    destruct (App.step w e) as [w1|] eqn:Hstep; [|discriminate].
    destruct Hheld as [Hnow Hlater].
    rewrite frameCount_cons.
    destruct (isRenderFrame e) eqn:Hframe.
    + destruct e; try discriminate. simpl in Hstep, He.
      pose proof (renderFrame_nth env w w1 i photo st Hstep Hnth) as Hnth1.
      set (st1 := App.photoFrame photo (App.interactionMode w)
                    (App.gestureRef w1) (App.delta env) (App.camera env)
                    (Some (App.photosParent env)) st) in *.
      assert (Hp1 : App.progress st1
                    = App.updateProgress (App.progress st) 0 (App.delta env)).
      { subst st1. rewrite photoFrame_progress by assumption.
        unfold App.targetProgress. rewrite (Hnow eq_refl). reflexivity. }
      assert (Hsettled : App.progress st1 = 0 \/ 0.01 <= App.progress st1).
      { rewrite Hp1.
        destruct (updateProgress_cases (App.progress st) 0 (App.delta env))
          as [[-> _] | [-> Hfar]]; [left; reflexivity|right].
        unfold MathUtils.lerp in *.
        rewrite Qabs_pos in Hfar by nra. nra. }
      assert (Hgap1 : 0 <= App.progress st1 <= 1
                      /\ App.progress st1 <= 0.9 * App.progress st).
      { rewrite Hp1.
        destruct (updateProgress_cases (App.progress st) 0 (App.delta env))
          as [[-> _] | [-> _]]; [split; lra|].
        unfold MathUtils.lerp. split; [split|]; nra. }
      destruct Hgap1 as [Hb1 Hgap1].
      destruct (IH w1 w' st1 Hnth1
                   (photoFrame_mounted _ _ _ _ _ _ _ Hg) Hb1
                   (restInv_frame _ _ _ _ _ _ _ Hrest) Hes Hlater Hrun)
        as (st' & Hnth' & Hb' & Hrest' & Hgap' & Himp).
      exists st'. split; [assumption|]. split; [assumption|].
      split; [assumption|]. split.
      * simpl. pose proof (geometric_pos 0.9 (frameCount es) eq_refl). nra.
      * intros _. apply Himp. right. exact Hsettled.
    + rewrite <- (step_photoGroups_other w w1 e Hframe Hstep) in Hnth.
      apply (IH w1 w' st Hnth Hg Hp Hrest Hes Hlater Hrun).
Qed.

Lemma run_restInv (es : list App.Event) :
  forall w w',
    App.run w es = Some w' ->
    Forall (fun g => restInv (snd g)) (App.photoGroups w) ->
    Forall (fun g => restInv (snd g)) (App.photoGroups w').
Proof.
  induction es as [|e es IH]; intros w w' Hrun Hinv.
  - simpl in Hrun. injection Hrun as <-. exact Hinv.
  - cbn [App.run] in Hrun.
    destruct (App.step w e) as [w1|] eqn:Hstep; [|discriminate].
    apply (IH w1 w' Hrun).
    destruct (isRenderFrame e) eqn:Hframe.
    + destruct e; try discriminate. simpl in Hstep.
      unfold App.renderFrame in Hstep.
      destruct (App.sceneSelect _ _ _ _) as [ref1|]; [|discriminate].
      injection Hstep as <-. simpl.
      apply Forall_forall. intros g Hin.
      apply in_map_iff in Hin. destruct Hin as (g0 & <- & Hin0).
      simpl. apply restInv_frame.
      rewrite Forall_forall in Hinv. apply (Hinv g0 Hin0).
    + rewrite (step_photoGroups_other w w1 e Hframe Hstep). exact Hinv.
Qed.

(** Releasing completes: from any state reached with blend factors in
    (0, 1], once a photo has not been the focused one over 44 render
    frames lasting between 0.01 s and 0.1 s each, its progress is exactly 0
    and its cached locked pose has been cleared. *)
Theorem release_completes_within_44_frames (photos : list App.PhotoData)
        (es0 es : list App.Event) (w0 w : App.World) (i : nat)
        (photo : App.PhotoData) (st0 : App.PhotoState) :
  Forall smoothFrame es0 ->
  App.run (App.initialWorld photos) es0 = Some w0 ->
  nth_error (App.photoGroups w0) i = Some (photo, st0) ->
  Forall briskFrame es ->
  afterFrames (fun s => App.isId (App.focusedId (App.gestureRef s))
                                 (App.Photo.id photo) = false) w0 es ->
  (44 <= frameCount es)%nat ->
  App.run w0 es = Some w ->
  exists st, nth_error (App.photoGroups w) i = Some (photo, st)
             /\ App.progress st = 0
             /\ App.lockedState st = None.
Proof.
  intros Hsmooth0 Hrun0 Hnth0 Hbrisk Hheld Hcount Hrun.
  pose proof (reachable_inv photos es0 w0 Hsmooth0 Hrun0) as Hinv0.
  destruct (worldInv_nth w0 i photo st0 Hinv0 Hnth0) as (Hg & Hp & _).
  assert (Hrest0 : restInv st0).
  { assert (Hall : Forall (fun g => restInv (snd g)) (App.photoGroups w0)).
    { apply (run_restInv es0 _ _ Hrun0). simpl.
      apply Forall_forall. intros g Hin.
      apply in_map_iff in Hin. destruct Hin as (p0 & <- & _).
      intros _. reflexivity. }
    rewrite Forall_forall in Hall.
    apply (Hall (photo, st0)). eapply nth_error_In. eassumption. }
  destruct (release_gap_along_run i photo es w0 w st0 Hnth0 Hg Hp Hrest0
              Hbrisk Hheld Hrun) as (st & Hnth & Hb & Hrest & Hgap & Himp).
  assert (Hzero : App.progress st = 0).
  { destruct Himp as [H0 | Hfar]; [left; lia|exact H0|exfalso].
    pose proof (geometric_antitone 0.9 44 (frameCount es) eq_refl
                  ltac:(discriminate) Hcount) as Hg44.
    assert (H44 : geometric 0.9 44 < 0.01) by reflexivity.
    pose proof (geometric_pos 0.9 (frameCount es) eq_refl). nra. }
  exists st. split; [assumption|]. split; [assumption|].
  apply Hrest. rewrite Hzero. reflexivity.
Qed.

End TransitionProperties.

(** *** Runs of the sample scene *)

Lemma run_app (w : @App.World SampleThree.ops)
      (es1 es2 : list (@App.Event SampleThree.ops)) :
  App.run w (es1 ++ es2)
  = match App.run w es1 with
    | Some w1 => App.run w1 es2
    | None => None
    end.
Proof.
  revert w. induction es1 as [|e es1 IH]; intro w; [reflexivity|].
  cbn [App.run app]. destruct (App.step w e); [apply IH|reflexivity].
Qed.

Lemma worldAfter_run (es : list (@App.Event SampleThree.ops)) :
  completes es = true -> App.run sampleWorld es = Some (worldAfter es).
Proof.
  unfold completes, worldAfter.
  destruct (App.run sampleWorld es); [reflexivity|discriminate].
Qed.

Lemma worldAfter_app (es0 es : list (@App.Event SampleThree.ops)) :
  completes (es0 ++ es) = true ->
  App.run (worldAfter es0) es = Some (worldAfter (es0 ++ es)).
Proof.
  unfold completes, worldAfter. rewrite run_app.
  destruct (App.run sampleWorld es0) as [w0|]; [|discriminate].
  destruct (App.run w0 es); [reflexivity|discriminate].
Qed.

Lemma run_photosOf (es : list (@App.Event SampleThree.ops)) :
  forall w w', App.run w es = Some w' -> App.photosOf w' = App.photosOf w.
Proof.
  induction es as [|e es IH]; intros w w' Hrun.
  - simpl in Hrun. injection Hrun as <-. reflexivity.
  - cbn [App.run] in Hrun.
    destruct (App.step w e) as [w1|] eqn:Hstep; [|discriminate].
    rewrite (IH w1 w' Hrun). apply (photosOf_step w w1 e Hstep).
Qed.

Lemma worldAfter_first (es : list (@App.Event SampleThree.ops)) :
  completes es = true ->
  nth_error (App.photoGroups (worldAfter es)) 0
  = Some (photoA, stateOf (worldAfter es) 0).
Proof.
  intro Hok.
  pose proof (run_photosOf es _ _ (worldAfter_run es Hok)) as Hphotos.
  unfold stateOf. unfold App.photosOf in Hphotos.
  destruct (App.photoGroups (worldAfter es)) as [|[photo st] rest];
    [discriminate|].
  simpl in Hphotos. injection Hphotos as -> _. reflexivity.
Qed.

Lemma afterFrames_impl (P R : @App.World SampleThree.ops -> Prop)
      (es : list (@App.Event SampleThree.ops)) :
  (forall s, P s -> R s) ->
  forall w, afterFrames P w es -> afterFrames R w es.
Proof.
  intro Himp. induction es as [|e es IH]; intros w H; [exact I|].
  cbn [afterFrames] in *. destruct (App.step w e) as [w1|]; [|exact I].
  destruct H as [Hnow Hlater]. split; [|apply IH; assumption].
  intro Hf. apply Himp, Hnow, Hf.
Qed.

Lemma progressAtLeast_spec (q : Q) (i : nat) (photo : App.PhotoData)
      (s : @App.World SampleThree.ops) :
  progressAtLeast q i s = true ->
  forall st1, nth_error (App.photoGroups s) i = Some (photo, st1) ->
              q <= App.progress st1.
Proof.
  unfold progressAtLeast. intros H st1 Hnth. rewrite Hnth in H.
  apply Qle_bool_iff. exact H.
Qed.

Lemma resting_photo_stays_at_rest_holds :
  App.progress
    (App.photoFrame photoB App.MOUSE
       (App.setFocusedId App.initialGestureRef (Some "photo-1"%string))
       5 (sampleCamera 0) (Some sampleParent)
       (@App.initialPhotoState SampleThree.ops)) = 0.
Proof.
  apply (@resting_photo_stays_at_rest SampleThree.ops photoB App.MOUSE
           (App.setFocusedId App.initialGestureRef (Some "photo-1"%string))
           5 (sampleCamera 0) (Some sampleParent) App.initialPhotoState).
  - discriminate.
  - reflexivity.
  - reflexivity.
Defined.

Lemma locked_cache_is_write_once_holds :
  exists st',
    App.lockedState (stateOf (worldAfter [App.Click 0; sampleFrame 0.1 0]) 0)
    = Some sampleLocked
    /\ nth_error
         (App.photoGroups
            (worldAfter ([App.Click 0; sampleFrame 0.1 0]
                         ++ [App.Click 0; sampleFrame 0.02 3;
                             App.Click 0; sampleFrame 0.02 (-2)])))
         0 = Some (photoA, st')
    /\ App.lockedState st' = Some sampleLocked.
Proof.
  assert (Hl : App.lockedState
                 (stateOf (worldAfter [App.Click 0; sampleFrame 0.1 0]) 0)
               = Some sampleLocked) by reflexivity.
  destruct (@locked_cache_is_write_once SampleThree.ops 0%nat photoA sampleLocked
              (worldAfter [App.Click 0; sampleFrame 0.1 0])
              (worldAfter ([App.Click 0; sampleFrame 0.1 0]
                           ++ [App.Click 0; sampleFrame 0.02 3;
                               App.Click 0; sampleFrame 0.02 (-2)]))
              [App.Click 0; sampleFrame 0.02 3; App.Click 0; sampleFrame 0.02 (-2)]
              (stateOf (worldAfter [App.Click 0; sampleFrame 0.1 0]) 0))
    as (st' & Hnth & Hl').
  - apply worldAfter_first. vm_compute. reflexivity.
  - exact Hl.
  - apply (afterFrames_impl (fun s => progressAtLeast 0.001 0 s = true));
      [intros s Hs; apply progressAtLeast_spec; exact Hs|].
    vm_compute. repeat split; reflexivity.
  - apply worldAfter_app. vm_compute. reflexivity.
  - exists st'. split; [exact Hl|]. split; assumption.
Defined.

Lemma focus_completes_within_44_frames_holds :
  exists st,
    nth_error (App.photoGroups (worldAfter ([App.Click 0] ++ fortyFourFrames))) 0
    = Some (photoA, st)
    /\ App.progress st = 1
    /\ App.lockedState st <> None.
Proof.
  apply (@focus_completes_within_44_frames SampleThree.ops [photoA; photoB]
           [App.Click 0] fortyFourFrames (worldAfter [App.Click 0])
           (worldAfter ([App.Click 0] ++ fortyFourFrames)) 0%nat photoA
           (stateOf (worldAfter [App.Click 0]) 0)).
  - repeat constructor.
  - apply worldAfter_run. vm_compute. reflexivity.
  - apply worldAfter_first. vm_compute. reflexivity.
  - repeat constructor; qcompute.
  - vm_compute. repeat split; reflexivity.
  - vm_compute. lia.
  - apply worldAfter_app. vm_compute. reflexivity.
Defined.

Lemma release_completes_within_44_frames_holds :
  exists st,
    nth_error
      (App.photoGroups
         (worldAfter ([App.Click 0; sampleFrame 0.1 0; App.Click 0]
                      ++ fortyFourFrames))) 0
    = Some (photoA, st)
    /\ App.progress st = 0
    /\ App.lockedState st = None.
Proof.
  apply (@release_completes_within_44_frames SampleThree.ops [photoA; photoB]
           [App.Click 0; sampleFrame 0.1 0; App.Click 0] fortyFourFrames
           (worldAfter [App.Click 0; sampleFrame 0.1 0; App.Click 0])
           (worldAfter ([App.Click 0; sampleFrame 0.1 0; App.Click 0]
                        ++ fortyFourFrames)) 0%nat photoA
           (stateOf (worldAfter [App.Click 0; sampleFrame 0.1 0; App.Click 0]) 0)).
  - repeat constructor; qcompute.
  - apply worldAfter_run. vm_compute. reflexivity.
  - apply worldAfter_first. vm_compute. reflexivity.
  - repeat constructor; qcompute.
  - vm_compute. repeat split; reflexivity.
  - vm_compute. lia.
  - apply worldAfter_app. vm_compute. reflexivity.
Defined.

(** ** Asset paths, the photo layout and the control panel *)

(** A leading slash in an asset path is optional, and only one is ever
    removed: [getAssetPath] of "/" followed by [path] is [BASE_URL]
    followed by [path], and so is [getAssetPath] of [path] itself unless
    [path] starts with a slash of its own. *)
Theorem asset_path_leading_slash_optional (BASE_URL path : string) :
  Assets.getAssetPath BASE_URL (String "/" path) = (BASE_URL ++ path)%string
  /\ (Assets.startsWithSlash path = false ->
      Assets.getAssetPath BASE_URL path = (BASE_URL ++ path)%string
      /\ Assets.getAssetPath BASE_URL (String "/" path)
         = Assets.getAssetPath BASE_URL path)
  /\ Assets.getAssetPath BASE_URL (String "/" (String "/" path))
     = (BASE_URL ++ String "/" path)%string.
Proof.
  assert (Hslash : forall p, Assets.getAssetPath BASE_URL (String "/" p)
                             = (BASE_URL ++ p)%string).
  { intro p. unfold Assets.getAssetPath, Assets.startsWithSlash. simpl.
    destruct p; reflexivity. }
  split; [apply Hslash|]. split; [|apply Hslash].
  intro Hno. rewrite Hslash. unfold Assets.getAssetPath. rewrite Hno.
  split; reflexivity.
Qed.

Section LayoutProperties.
Variables cos sin : Q -> Q.
Variable random : nat -> Q.

Lemma decimal_injective (i j : nat) :
  PhotoLayout.decimal i = PhotoLayout.decimal j -> i = j.
Proof.
  unfold PhotoLayout.decimal. intro H.
  apply (f_equal NilEmpty.uint_of_string) in H.
  rewrite !NilEmpty.usu in H. injection H as H.
  apply (f_equal Nat.of_uint) in H.
  rewrite !DecimalNat.Unsigned.of_to in H. exact H.
Qed.

Lemma initialPhotos_ids (total : nat) :
  map App.Photo.id (PhotoLayout.initialPhotosUpTo cos sin random total)
  = map (fun i => ("photo-" ++ PhotoLayout.decimal i)%string) (seq 1 total).
Proof.
  unfold PhotoLayout.initialPhotosUpTo. rewrite map_map. reflexivity.
Qed.

(** The photos the application creates have pairwise distinct, non-empty
    ids, one per photo: "photo-1" up to "photo-N" in list order.  In
    particular the ten photos of the application satisfy what the pinch
    selection needs (a non-empty list, non-empty ids). *)
Theorem initial_photos_have_distinct_ids (total : nat) :
  NoDup (map App.Photo.id (PhotoLayout.initialPhotosUpTo cos sin random total))
  /\ List.length (PhotoLayout.initialPhotosUpTo cos sin random total) = total
  /\ Forall (fun photo => App.Photo.id photo <> EmptyString)
            (PhotoLayout.initialPhotosUpTo cos sin random total)
  /\ (forall i, (i < total)%nat ->
        option_map App.Photo.id
          (nth_error (PhotoLayout.initialPhotosUpTo cos sin random total) i)
        = Some ("photo-" ++ PhotoLayout.decimal (S i))%string)
  /\ PhotoLayout.initialPhotos cos sin random <> [].
Proof.
  split; [|split; [|split; [|split]]].
  - rewrite initialPhotos_ids.
    apply NoDup_map_NoDup_ForallPairs; [|apply seq_NoDup].
    intros i j _ _ H. apply decimal_injective.
    simpl in H. congruence.
  - unfold PhotoLayout.initialPhotosUpTo. rewrite length_map. apply length_seq.
  - unfold PhotoLayout.initialPhotosUpTo. apply Forall_forall.
    intros photo Hin. apply in_map_iff in Hin.
    destruct Hin as (i & <- & _). discriminate.
  - intros i Hi. unfold PhotoLayout.initialPhotosUpTo.
    rewrite nth_error_map, nth_error_seq.
    apply Nat.ltb_lt in Hi. rewrite Hi. reflexivity.
  - discriminate.
Qed.

Lemma height_bounds (total i : nat) :
  (1 <= i)%nat -> (i <= total)%nat ->
  -6 < inject_Z (Z.of_nat i) / inject_Z (Z.of_nat total) * 12 - 6 <= 6.
Proof.
  intros H1 Ht.
  assert (Hi : 0 < inject_Z (Z.of_nat i))
    by (change 0 with (inject_Z 0); rewrite <- Zlt_Qlt; lia).
  assert (Hn : 0 < inject_Z (Z.of_nat total))
    by (change 0 with (inject_Z 0); rewrite <- Zlt_Qlt; lia).
  assert (Hle : inject_Z (Z.of_nat i) <= inject_Z (Z.of_nat total))
    by (rewrite <- Zle_Qle; lia).
  assert (Hpos : 0 < inject_Z (Z.of_nat i) / inject_Z (Z.of_nat total))
    by (apply Qlt_shift_div_l; [assumption|lra]).
  assert (Hone : inject_Z (Z.of_nat i) / inject_Z (Z.of_nat total) <= 1)
    by (apply Qle_shift_div_r; [assumption|lra]).
  lra.
Qed.

(** The photos are stacked from bottom to top: every photo's height lies
    in (-6, 6], the heights strictly increase along the list, and the last
    photo sits at exactly 6. *)
Theorem initial_photos_climb_the_tree (total i j : nat)
        (photo later : App.PhotoData) :
  nth_error (PhotoLayout.initialPhotosUpTo cos sin random total) i = Some photo ->
  nth_error (PhotoLayout.initialPhotosUpTo cos sin random total) j = Some later ->
  (i < j)%nat ->
  -6 < vy (App.Photo.position photo)
  /\ vy (App.Photo.position photo) < vy (App.Photo.position later)
  /\ vy (App.Photo.position later) <= 6
  /\ (S j = total -> vy (App.Photo.position later) == 6).
Proof.
  unfold PhotoLayout.initialPhotosUpTo. intros Hi Hj Hlt.
  assert (Hjt : (j < total)%nat).
  { rewrite <- (length_seq total 1), <- (length_map (PhotoLayout.photoOf cos sin random total)).
    apply nth_error_Some. rewrite Hj. discriminate. }
  rewrite nth_error_map, nth_error_seq in Hi, Hj.
  assert (Hib : (i <? total)%nat = true) by (apply Nat.ltb_lt; lia).
  assert (Hjb : (j <? total)%nat = true) by (apply Nat.ltb_lt; lia).
  rewrite Hib in Hi. rewrite Hjb in Hj.
  simpl option_map in Hi, Hj.
  injection Hi as <-. injection Hj as <-.
  cbn [App.Photo.position PhotoLayout.photoOf vy].
  pose proof (height_bounds total (S i) ltac:(lia) ltac:(lia)) as Hbi.
  pose proof (height_bounds total (S j) ltac:(lia) ltac:(lia)) as Hbj.
  assert (Hn : 0 < inject_Z (Z.of_nat total))
    by (change 0 with (inject_Z 0); rewrite <- Zlt_Qlt; lia).
  assert (Hij : inject_Z (Z.of_nat (S i)) < inject_Z (Z.of_nat (S j)))
    by (rewrite <- Zlt_Qlt; lia).
  split; [apply Hbi|]. split; [|split; [apply Hbj|]].
  - assert (Hdiv : inject_Z (Z.of_nat (S i)) / inject_Z (Z.of_nat total)
                   < inject_Z (Z.of_nat (S j)) / inject_Z (Z.of_nat total)).
    { apply Qlt_shift_div_l; [assumption|].
      assert (Heq : inject_Z (Z.of_nat (S i)) / inject_Z (Z.of_nat total)
                    * inject_Z (Z.of_nat total)
                    == inject_Z (Z.of_nat (S i))) by (field; lra).
      rewrite Heq. exact Hij. }
    lra.
  - intro Hlast. rewrite Hlast.
    assert (Heq : inject_Z (Z.of_nat total) / inject_Z (Z.of_nat total) == 1)
      by (field; lra).
    rewrite Heq. reflexivity.
Qed.

End LayoutProperties.

Lemma initial_photos_climb_the_tree_holds :
  let photos := PhotoLayout.initialPhotos sqrt6 sqrt6 sampleRandom in
  exists photo later,
    nth_error photos 2 = Some photo /\ nth_error photos 9 = Some later
    /\ vy (App.Photo.position photo) < vy (App.Photo.position later)
    /\ vy (App.Photo.position later) == 6.
Proof.
  intro photos.
  destruct (nth_error photos 2) as [photo|] eqn:H2; [|discriminate].
  destruct (nth_error photos 9) as [later|] eqn:H9; [|discriminate].
  exists photo, later.
  destruct (initial_photos_climb_the_tree sqrt6 sqrt6 sampleRandom
              PhotoLayout.TOTAL_PHOTOS 2 9 photo later H2 H9 ltac:(lia))
    as (_ & Hlt & _ & Hlast).
  repeat split; [assumption|apply Hlast; reflexivity].
Defined.

Lemma moves_while_dragging (moves : list ControlPanel.Point) :
  forall s finish,
    ControlPanel.isDragging s = true ->
    ControlPanel.handleAll s (map ControlPanel.MouseMove (moves ++ [finish]))
    = ControlPanel.moveTo finish s.
Proof.
  induction moves as [|m moves IH]; intros s finish Hdrag.
  - unfold ControlPanel.handleAll. simpl.
    unfold ControlPanel.handleWindowMouseMove. rewrite Hdrag. reflexivity.
  - assert (Hstep : ControlPanel.handleAll s
                      (map ControlPanel.MouseMove ((m :: moves) ++ [finish]))
                    = ControlPanel.handleAll (ControlPanel.moveTo m s)
                        (map ControlPanel.MouseMove (moves ++ [finish]))).
    { unfold ControlPanel.handleAll. simpl.
      unfold ControlPanel.handleWindowMouseMove. rewrite Hdrag. reflexivity. }
    rewrite Hstep. rewrite (IH (ControlPanel.moveTo m s) finish Hdrag).
    reflexivity.
Qed.

(** Dragging the control panel: after a mouse-down at [start] and any
    moves ending at [finish], the panel has moved by exactly the pointer's
    displacement [finish - start], whatever the moves in between; after the
    mouse-up, further moves leave the panel where it is. *)
Theorem panel_follows_the_pointer (s : ControlPanel.DragState)
        (start finish : ControlPanel.Point)
        (moves afterwards : list ControlPanel.Point) :
  let dragged :=
    ControlPanel.handleAll s
      (ControlPanel.MouseDown start
       :: map ControlPanel.MouseMove (moves ++ [finish])) in
  let released :=
    ControlPanel.handleAll dragged
      (ControlPanel.MouseUp :: map ControlPanel.MouseMove afterwards) in
  ControlPanel.px (ControlPanel.controlPos dragged)
  == ControlPanel.px (ControlPanel.controlPos s)
     + (ControlPanel.px finish - ControlPanel.px start)
  /\ ControlPanel.py (ControlPanel.controlPos dragged)
     == ControlPanel.py (ControlPanel.controlPos s)
        + (ControlPanel.py finish - ControlPanel.py start)
  /\ ControlPanel.controlPos released = ControlPanel.controlPos dragged
  /\ ControlPanel.isDragging released = false.
Proof.
  intros dragged released.
  assert (Hdrag : ControlPanel.controlPos dragged
                  = ControlPanel.mkPoint
                      (ControlPanel.px finish
                       - (ControlPanel.px start
                          - ControlPanel.px (ControlPanel.controlPos s)))
                      (ControlPanel.py finish
                       - (ControlPanel.py start
                          - ControlPanel.py (ControlPanel.controlPos s)))).
  { subst dragged. cbn [ControlPanel.handleAll fold_left ControlPanel.handle].
    fold (ControlPanel.handleAll (ControlPanel.handleMouseDown start s)
            (map ControlPanel.MouseMove (moves ++ [finish]))).
    rewrite (moves_while_dragging moves (ControlPanel.handleMouseDown start s)
               finish eq_refl). reflexivity. }
  assert (Hidle : forall ms st, ControlPanel.isDragging st = false ->
            ControlPanel.handleAll st (map ControlPanel.MouseMove ms) = st).
  { induction ms as [|m ms IH]; intros st Hst; [reflexivity|].
    cbn [map ControlPanel.handleAll fold_left ControlPanel.handle].
    unfold ControlPanel.handleWindowMouseMove. rewrite Hst.
    apply (IH st Hst). }
  rewrite Hdrag. simpl.
  split; [ring|]. split; [ring|].
  subst released. cbn [ControlPanel.handleAll fold_left ControlPanel.handle].
  fold (ControlPanel.handleAll (ControlPanel.handleWindowMouseUp dragged)
          (map ControlPanel.MouseMove afterwards)).
  rewrite Hidle by reflexivity. simpl. rewrite Hdrag. split; reflexivity.
Qed.

(** ** The raycast scene of the earlier application *)

Lemma raycast_select_keeps_signal (mode : App.InteractionMode)
      (hit : option string) (ref : App.GestureRef) :
  App.isHandDetected (RaycastScene.sceneSelect mode hit ref) = App.isHandDetected ref
  /\ App.cursor (RaycastScene.sceneSelect mode hit ref) = App.cursor ref
  /\ App.isPinching (RaycastScene.sceneSelect mode hit ref) = App.isPinching ref.
Proof.
  destruct ref as [r d h c p f]. unfold RaycastScene.sceneSelect. simpl.
  destruct mode, h, c, hit, (App.truthyFlag p); repeat split; reflexivity.
Qed.

Lemma raycast_selectAll_keeps_signal (mode : App.InteractionMode)
      (hits : list (option string)) :
  forall ref,
    App.isHandDetected (RaycastScene.selectAll mode hits ref) = App.isHandDetected ref
    /\ App.cursor (RaycastScene.selectAll mode hits ref) = App.cursor ref
    /\ App.isPinching (RaycastScene.selectAll mode hits ref) = App.isPinching ref.
Proof.
  induction hits as [|hit hits IH]; intro ref; [repeat split; reflexivity|].
  cbn [RaycastScene.selectAll fold_left].
  fold (RaycastScene.selectAll mode hits (RaycastScene.sceneSelect mode hit ref)).
  destruct (IH (RaycastScene.sceneSelect mode hit ref)) as (Hh & Hc & Hp).
  destruct (raycast_select_keeps_signal mode hit ref) as (Hh1 & Hc1 & Hp1).
  rewrite Hh, Hc, Hp, Hh1, Hc1, Hp1. repeat split; reflexivity.
Qed.

Lemma raycast_selectAll_app (mode : App.InteractionMode)
      (l1 l2 : list (option string)) (ref : App.GestureRef) :
  RaycastScene.selectAll mode (l1 ++ l2) ref
  = RaycastScene.selectAll mode l2 (RaycastScene.selectAll mode l1 ref).
Proof. unfold RaycastScene.selectAll. apply fold_left_app. Qed.

Lemma raycast_misses_keep_focus (misses : nat) :
  forall ref,
    App.isHandDetected ref = true ->
    App.cursor ref <> None ->
    App.truthyFlag (App.isPinching ref) = true ->
    RaycastScene.selectAll App.GESTURE (repeat None misses) ref = ref.
Proof.
  induction misses as [|n IH]; intros ref Hh Hc Hp; [reflexivity|].
  cbn [repeat RaycastScene.selectAll fold_left].
  fold (RaycastScene.selectAll App.GESTURE (repeat None n)
          (RaycastScene.sceneSelect App.GESTURE None ref)).
  assert (Hstep : RaycastScene.sceneSelect App.GESTURE None ref = ref).
  { unfold RaycastScene.sceneSelect. rewrite Hh, Hp.
    destruct (App.cursor ref); [reflexivity|congruence]. }
  rewrite Hstep. apply IH; assumption.
Qed.

(** In the raycast scene the focus follows the ray for as long as the pinch
    is held: with a hand and a cursor in gesture mode, after any frames that
    end with the ray on photo [a], followed by any number of frames on which
    the ray meets no photo, the focus is [a], whatever was focused before;
    and once the pinch is open, a single frame clears the focus wherever the
    ray points. *)
Theorem raycast_focus_follows_the_ray (ref : App.GestureRef)
        (hits : list (option string)) (a : string) (misses : nat) :
  App.isHandDetected ref = true ->
  App.cursor ref <> None ->
  (App.truthyFlag (App.isPinching ref) = true ->
   App.focusedId
     (RaycastScene.selectAll App.GESTURE
        (hits ++ Some a :: repeat None misses) ref) = Some a)
  /\ (App.truthyFlag (App.isPinching ref) = false ->
      hits <> [] ->
      App.focusedId (RaycastScene.selectAll App.GESTURE hits ref) = None).
Proof.
  intros Hh Hc. split.
  - intro Hp. rewrite raycast_selectAll_app.
    destruct (raycast_selectAll_keeps_signal App.GESTURE hits ref)
      as (Hh1 & Hc1 & Hp1).
    set (ref1 := RaycastScene.selectAll App.GESTURE hits ref) in *.
    cbn [RaycastScene.selectAll fold_left].
    fold (RaycastScene.selectAll App.GESTURE (repeat None misses)
            (RaycastScene.sceneSelect App.GESTURE (Some a) ref1)).
    assert (Hstep : RaycastScene.sceneSelect App.GESTURE (Some a) ref1
                    = App.setFocusedId ref1 (Some a)).
    { unfold RaycastScene.sceneSelect. rewrite Hh1, Hp1, Hc1, Hh, Hp.
      destruct (App.cursor ref); [reflexivity|congruence]. }
    rewrite Hstep. rewrite raycast_misses_keep_focus.
    + reflexivity.
    + simpl. rewrite Hh1. exact Hh.
    + simpl. rewrite Hc1. exact Hc.
    + simpl. rewrite Hp1. exact Hp.
  - intros Hp Hne.
    destruct (exists_last Hne) as (front & [hit Hlast]). subst hits.
    rewrite raycast_selectAll_app.
    destruct (raycast_selectAll_keeps_signal App.GESTURE front ref)
      as (Hh1 & Hc1 & Hp1).
    set (ref1 := RaycastScene.selectAll App.GESTURE front ref) in *.
    cbn [RaycastScene.selectAll fold_left].
    unfold RaycastScene.sceneSelect. rewrite Hh1, Hp1, Hc1, Hh, Hp.
    destruct (App.cursor ref); [|congruence].
    destruct hit; reflexivity.
Qed.

Lemma raycast_focus_follows_the_ray_holds :
  App.focusedId
    (RaycastScene.selectAll App.GESTURE
       ([Some "photo-1"%string; None] ++ Some "photo-2"%string :: repeat None 3)
       (App.mkGestureRef 0 0 true (Some (0, 0)) (Some true) None))
  = Some "photo-2"%string.
Proof.
  apply (raycast_focus_follows_the_ray
           (App.mkGestureRef 0 0 true (Some (0, 0)) (Some true) None)
           [Some "photo-1"%string; None] "photo-2"%string 3 eq_refl).
  - discriminate.
  - reflexivity.
Defined.

(** ** The first application *)

Lemma legacy_emitted_dispersion_bounds (sqrt : Q -> Q) (lastVideoTime : Q)
      (env : LegacyGestureController.TickEnv)
      (data : LegacyGestureController.GestureData) :
  LegacyGestureController.emitted
    (LegacyGestureController.predictWebcam sqrt lastVideoTime env) = Some data ->
  0 <= LegacyGestureController.dispersion data <= 1.
Proof.
  unfold LegacyGestureController.predictWebcam.
  destruct (negb (LegacyGestureController.handLandmarker env)
            || negb (LegacyGestureController.canvasMounted env));
    [discriminate|].
  destruct (GestureController.degenerate (LegacyGestureController.video env));
    [discriminate|].
  destruct (negb (Qeq_bool _ _)); [|discriminate].
  destruct (LegacyGestureController.detect env) as [|landmarks];
    [discriminate|].
  simpl. intro He.
  assert (Hlost : 0 <= LegacyGestureController.dispersion
                         LegacyGestureController.handLost <= 1).
  { simpl. lra. }
  destruct landmarks as [[|hand rest]|]; simpl in He;
    try (injection He as <-; exact Hlost).
  unfold LegacyGestureController.handSignal in He.
  destruct (nth_error hand 0) as [wrist|]; [|discriminate].
  destruct (nth_error hand 12) as [middleTip|]; [|discriminate].
  injection He as <-. simpl.
  set (v := (GestureController.wristMiddleDist sqrt wrist middleTip - 0.15)
            / (0.35 - 0.15)).
  pose proof (Q.le_min_r (Qmax v 0) 1) as Hmin.
  assert (Hmax : 0 <= Qmin (Qmax v 0) 1).
  { apply Q.min_glb; [apply Q.le_max_r|lra]. }
  lra.
Qed.

(** In the first application the photos spread with the hand within fixed
    bounds: whatever signal the legacy tick emits, and in either mode, each
    photo's group is scaled by a factor between 1 and 1.5, keeps its
    height, and its horizontal coordinates are those of its place on the
    tree multiplied by one common factor between 1 and 2. *)
Theorem legacy_photos_spread_within_bounds (sqrt : Q -> Q) (lastVideoTime : Q)
        (env : LegacyGestureController.TickEnv)
        (current data : LegacyGestureController.GestureData)
        (mode : App.InteractionMode) (photo : App.PhotoData) :
  LegacyGestureController.emitted
    (LegacyGestureController.predictWebcam sqrt lastVideoTime env) = Some data ->
  let shown :=
    LegacyApp.interactionData mode (LegacyApp.handleGestureUpdate current data) in
  1 <= LegacyApp.photoScale shown <= 1.5
  /\ vy (LegacyApp.photoPosition photo shown) = vy (App.Photo.position photo)
  /\ exists k, 1 <= k <= 2
       /\ vx (LegacyApp.photoPosition photo shown)
          == vx (App.Photo.position photo) * k
       /\ vz (LegacyApp.photoPosition photo shown)
          == vz (App.Photo.position photo) * k.
Proof.
  intros He shown.
  pose proof (legacy_emitted_dispersion_bounds sqrt lastVideoTime env data He)
    as Hd.
  assert (Hs : 0 <= snd shown <= 1).
  { subst shown. unfold LegacyApp.interactionData, LegacyApp.handleGestureUpdate.
    destruct mode; simpl; lra. }
  unfold LegacyApp.photoScale, LegacyApp.photoPosition. simpl.
  split; [lra|]. split; [reflexivity|].
  exists (1 + snd shown). split; [lra|]. split; reflexivity.
Qed.

Lemma legacy_photos_spread_within_bounds_holds :
  exists data,
    LegacyGestureController.emitted
      (LegacyGestureController.predictWebcam sqrt6 (-1)
         (LegacyGestureController.mkTickEnv true true (sampleVideo 0.04)
            (GestureController.DetectReturns (Some [openHand])))) = Some data
    /\ 1 <= LegacyApp.photoScale (LegacyApp.interactionData App.GESTURE data)
       <= 1.5.
Proof.
  eexists. split; [reflexivity|].
  apply (legacy_photos_spread_within_bounds sqrt6 (-1)
           (LegacyGestureController.mkTickEnv true true (sampleVideo 0.04)
              (GestureController.DetectReturns (Some [openHand])))
           LegacyApp.initialGestureData _ App.GESTURE
           (App.Photo.mkPhotoData "photo-1"%string "1.jpg"%string (mkVector3 1 2 3) (mkVector3 0 0 0))
           eq_refl).
Defined.

(** When the legacy tick finds no hand, the first application in gesture
    mode shows exactly what it shows in mouse mode: the yaw advances by
    0.1 per second, and every photo sits at its place on the tree at the
    same scale. *)
Theorem legacy_lost_hand_looks_like_mouse_mode (sqrt : Q -> Q)
        (lastVideoTime : Q)
        (landmarks : option (list (list GestureController.Landmark)))
        (env : LegacyGestureController.TickEnv)
        (current : LegacyGestureController.GestureData)
        (photo : App.PhotoData) (delta : Q) (yaw : option Q) :
  legacyProcessesFrame lastVideoTime env = true ->
  LegacyGestureController.detect env = GestureController.DetectReturns landmarks ->
  zeroHands landmarks ->
  exists data,
    LegacyGestureController.emitted
      (LegacyGestureController.predictWebcam sqrt lastVideoTime env) = Some data
    /\ let gestureData := LegacyApp.handleGestureUpdate current data in
       let byHand := LegacyApp.interactionData App.GESTURE gestureData in
       let byMouse := LegacyApp.interactionData App.MOUSE gestureData in
       LegacyApp.sceneFrame App.GESTURE byHand delta yaw
       = LegacyApp.sceneFrame App.MOUSE byMouse delta yaw
       /\ LegacyApp.photoPosition photo byHand
          = LegacyApp.photoPosition photo byMouse
       /\ LegacyApp.photoScale byHand = LegacyApp.photoScale byMouse.
Proof.
  intros Hproc Hdet Hzero.
  unfold legacyProcessesFrame in Hproc.
  apply andb_true_iff in Hproc. destruct Hproc as [Hproc Htime].
  apply andb_true_iff in Hproc. destruct Hproc as [Hproc Hdeg].
  apply andb_true_iff in Hproc. destruct Hproc as [Hlm Hcanvas].
  apply negb_true_iff in Hdeg.
  exists LegacyGestureController.handLost. split.
  - unfold LegacyGestureController.predictWebcam.
    rewrite Hlm, Hcanvas, Hdeg, Htime, Hdet. simpl.
    destruct Hzero as [-> | ->]; reflexivity.
  - simpl. repeat split; reflexivity.
Qed.

Lemma legacy_lost_hand_looks_like_mouse_mode_holds :
  LegacyApp.sceneFrame App.GESTURE
    (LegacyApp.interactionData App.GESTURE LegacyGestureController.handLost)
    0.016 (Some 1)
  = Some (1 + 0.1 * 0.016).
Proof.
  destruct (legacy_lost_hand_looks_like_mouse_mode sqrt6 (-1) (Some [])
              (LegacyGestureController.mkTickEnv true true (sampleVideo 0.04)
                 (GestureController.DetectReturns (Some [])))
              LegacyApp.initialGestureData
              (App.Photo.mkPhotoData "photo-1"%string "1.jpg"%string (mkVector3 1 2 3) (mkVector3 0 0 0))
              0.016 (Some 1) eq_refl eq_refl (or_intror eq_refl))
    as (data & He & Hyaw & _).
  injection He as <-. exact Hyaw.
Defined.
